(** * The Project resource service of the portfolio backend

    A shallow embedding of [src/server.js]: the Mongoose schema of the
    [Project] model and the six route handlers under [/api/projects],
    together with the part of Mongoose and of the MongoDB store that the
    handlers call (casting of a request body against the schema, defaults,
    required validators, strict mode, queries by identifier, sorting).

    Layout: JavaScript and BSON values, the schema, casting, the world the
    handlers run in, a small state-and-exception monad, the model
    operations, the handlers, and then the theorems; after them the start-up
    code, the health check and the earlier server of
    [src/unnamed/part_000], and worked examples on a small collection. *)

From Stdlib Require Import Ascii.
From stdpp Require Import base option list gmap strings pretty fin_maps sorting.

#[local] Set Warnings "-register-all".
#[local] Open Scope string_scope.
#[local] Open Scope Z_scope.

(** ** Values *)

(** The JavaScript values the handlers pass to Mongoose: what
    [express.json()] makes of a request body, and the [Date] object the
    update handler adds. Numbers are the integral ones, each given by its
    value; a fractional number is cast like an integral one by every caster
    below (text for a String path, an error for a Boolean path unless it is 0
    or 1, a truncated time value for a Date path, no identifier). *)
Inductive json : Type :=
| JNull
| JBool (b : bool)
| JNumber (n : Z)
| JString (s : string)
| JArray (l : list json)
| JObject (o : gmap string json)
| JDate (t : Z).         (* [new Date()]: a valid date, in milliseconds
                            since the epoch *)

(** A value stored in a MongoDB document. *)
Inductive bson : Type :=
| BNull
| BString (s : string)
| BBool (b : bool)
| BDate (t : Z)          (* milliseconds since the epoch *)
| BInt (n : Z)
| BArray (l : list bson).

(** An ObjectId is a 12-byte number; in a path it is written as 24
    hexadecimal digits. *)
Definition ObjectId : Type := N.

Definition hex_digit (c : ascii) : option N :=
  let n := N_of_ascii c in
  if ((48 <=? n) && (n <=? 57))%N then Some (n - 48)%N
  else if ((97 <=? n) && (n <=? 102))%N then Some (n - 87)%N
  else if ((65 <=? n) && (n <=? 70))%N then Some (n - 55)%N
  else None.

Fixpoint hex_value (s : string) (acc : N) : option N :=
  match s with
  | EmptyString => Some acc
  | String c s' =>
      match hex_digit c with
      | Some d => hex_value s' (16 * acc + d)%N
      | None => None
      end
  end.

(** [new ObjectId(id)] on a string: 24 hexadecimal digits, or it throws. *)
Definition ObjectId_fromHex (id : string) : option ObjectId :=
  if (String.length id =? 24)%nat then hex_value id 0%N else None.

(** [mongoose.Types.ObjectId.isValid(id)] on a string. *)
Definition isValid (id : string) : bool :=
  match ObjectId_fromHex id with Some _ => true | None => false end.

(** A stored document: the identifier and the other fields by name. *)
Record Doc : Type := mkDoc {
  _id : ObjectId;
  fields : gmap string bson;
}.

(** ** The schema *)

Inductive SchemaType : Type :=
| SString
| SBoolean
| SDate
| SArrayOfString.

Inductive Default : Type :=
| NoDefault
| DefaultValue (v : bson)
| DefaultNow.             (* [default: Date.now] *)

Record SchemaPath : Type := mkPath {
  type_ : SchemaType;
  required : bool;
  default_ : Default;
}.

(** [projectSchema], in the order of the source. *)
Definition projectSchema : list (string * SchemaPath) :=
  [ ("title",           mkPath SString true NoDefault);
    ("description",     mkPath SString true NoDefault);
    ("longDescription", mkPath SString false NoDefault);
    ("image",           mkPath SString true NoDefault);
    ("tags",            mkPath SArrayOfString false NoDefault);
    ("demoLink",        mkPath SString false NoDefault);
    ("codeLink",        mkPath SString false NoDefault);
    ("featured",        mkPath SBoolean false (DefaultValue (BBool false)));
    ("challenges",      mkPath SString false NoDefault);
    ("solutions",       mkPath SString false NoDefault);
    ("createdAt",       mkPath SDate false DefaultNow);
    ("updatedAt",       mkPath SDate false DefaultNow) ].

(** The schema's paths by name. *)
Definition paths : gmap string SchemaPath := list_to_map projectSchema.

(** The value a path takes when nothing was supplied for it; an array path
    without a declared default starts as the empty array. *)
Definition default_value (now : Z) (sp : SchemaPath) : option bson :=
  match default_ sp with
  | DefaultValue v => Some v
  | DefaultNow => Some (BDate now)
  | NoDefault =>
      match type_ sp with
      | SArrayOfString => Some (BArray [])
      | _ => None
      end
  end.

Definition defaults (now : Z) : gmap string bson :=
  omap (default_value now) paths.

(** ** Casting

    Each caster answers [None] where Mongoose raises a CastError. *)

Definition castBoolean (v : json) : option bson :=
  match v with
  | JNull => Some BNull
  | JBool b => Some (BBool b)
  | JNumber 1 => Some (BBool true)
  | JNumber 0 => Some (BBool false)
  | JString s =>
      if bool_decide (s = "true") || bool_decide (s = "1") || bool_decide (s = "yes")
      then Some (BBool true)
      else if bool_decide (s = "false") || bool_decide (s = "0") || bool_decide (s = "no")
      then Some (BBool false)
      else None
  | _ => None
  end.

(** The time values of a JavaScript Date. *)
Definition valid_time (t : Z) : bool :=
  (-8640000000000000 <=? t) && (t <=? 8640000000000000).

Inductive PathError : Type :=
| CastFailed
| RequiredMissing.

(** The required validator of a String path: text of positive length. *)
Definition checkRequired (v : option bson) : bool :=
  match v with
  | Some (BString (String _ _)) => true
  | _ => false
  end.

Inductive Error : Type :=
| JsError (message : string)                    (* [new Error(message)] *)
| MongooseError (message : string)
| ValidationError (errors : gmap string PathError)
| CastError (errors : gmap string PathError)
| MongoServerError (code : Z).

(** ** The world of a handler *)

Inductive Line : Type :=
| Log (text arg : string)
| LogError (text : string) (error : Error).

Record World : Type := mkWorld {
  readyState : Z;          (* [mongoose.connection.readyState]: 0 disconnected,
                              1 connected, 2 connecting, 3 disconnecting *)
  reconnects : bool;       (* whether a command issued while the connection
                              is not open gets through before it times out *)
  projects : list Doc;     (* the collection, in natural order *)
  clock : Z;               (* [Date.now()] *)
  next_oid : ObjectId;     (* the identifier [new Project] generates next *)
  console : list Line;     (* most recent line first *)
}.

Definition set_readyState (n : Z) (w : World) : World :=
  mkWorld n (reconnects w) (projects w) (clock w) (next_oid w) (console w).
Definition set_projects (l : list Doc) (w : World) : World :=
  mkWorld (readyState w) (reconnects w) l (clock w) (next_oid w) (console w).
Definition set_clock (t : Z) (w : World) : World :=
  mkWorld (readyState w) (reconnects w) (projects w) t (next_oid w) (console w).
Definition set_next_oid (n : ObjectId) (w : World) : World :=
  mkWorld (readyState w) (reconnects w) (projects w) (clock w) n (console w).
Definition print (l : Line) (w : World) : World :=
  mkWorld (readyState w) (reconnects w) (projects w) (clock w) (next_oid w)
          (l :: console w).

(** ** Computations that read and write the world and may throw *)

Definition M (A : Type) : Type := World -> (Error + A) * World.

Definition ret {A} (a : A) : M A := fun w => (inr a, w).

Definition bind {A B} (m : M A) (k : A -> M B) : M B :=
  fun w =>
    match m w with
    | (inr a, w') => k a w'
    | (inl e, w') => (inl e, w')
    end.

Definition throw {A} (e : Error) : M A := fun w => (inl e, w).

(** [try { body } catch (error) { handler }] *)
Definition try_catch {A} (body : M A) (handler : Error -> M A) : M A :=
  fun w =>
    match body w with
    | (inr a, w') => (inr a, w')
    | (inl e, w') => handler e w'
    end.

Notation "x <- m ;; k" := (bind m (fun x => k))
  (at level 100, m at next level, right associativity).
Notation "m ;;; k" := (bind m (fun _ => k))
  (at level 100, right associativity).

Definition get_readyState : M Z := fun w => (inr (readyState w), w).
Definition Date_now : M Z := fun w => (inr (clock w), w).
Definition console_log (text arg : string) : M unit :=
  fun w => (inr tt, print (Log text arg) w).
Definition console_error (text : string) (e : Error) : M unit :=
  fun w => (inr tt, print (LogError text e) w).

(** A command sent to the store. With the connection open it runs. Otherwise
    Mongoose and the driver hold it back: it runs once the connection is open,
    or fails when that takes too long. *)
Definition command {A} (op : M A) : M A :=
  fun w =>
    if readyState w =? 1 then op w
    else if reconnects w then op (set_readyState 1 w)
    else (inl (MongooseError "store command timed out"), w).

(** ** Responses *)

Inductive Body : Type :=
| JsonDoc (d : Doc)
| JsonDocs (l : list Doc)
| JsonMessage (message : string)       (* [{ message: ... }] *)
| JsonError (error : string).          (* [{ error: ... }] *)

Record Response : Type := mkResponse {
  status : Z;
  body : Body;
}.

(** ** The collection *)

Definition has_id (oid : ObjectId) (d : Doc) : bool := (_id d =? oid)%N.

Definition find_id (oid : ObjectId) (l : list Doc) : option Doc :=
  List.find (has_id oid) l.

Fixpoint update_first (oid : ObjectId) (f : Doc -> Doc) (l : list Doc) : list Doc :=
  match l with
  | [] => []
  | d :: l' => if has_id oid d then f d :: l' else d :: update_first oid f l'
  end.

Fixpoint remove_first (oid : ObjectId) (l : list Doc) : list Doc :=
  match l with
  | [] => []
  | d :: l' => if has_id oid d then l' else d :: remove_first oid l'
  end.

(** [{ featured: true }] as a query. *)
Definition is_featured (d : Doc) : bool :=
  match fields d !! "featured" with
  | Some (BBool true) => true
  | _ => false
  end.

(** [.sort({ createdAt: -1 })]: by the stored [createdAt], latest first, a
    record without a date last; records with equal keys stay in natural
    order. *)
Definition createdAt_key (d : Doc) : option Z :=
  match fields d !! "createdAt" with
  | Some (BDate t) => Some t
  | _ => None
  end.

Definition key_le (a b : option Z) : bool :=
  match a, b with
  | None, _ => true
  | Some _, None => false
  | Some x, Some y => x <=? y
  end.

Fixpoint insert_desc (x : Doc) (l : list Doc) : list Doc :=
  match l with
  | [] => [x]
  | y :: l' =>
      if key_le (createdAt_key y) (createdAt_key x) then x :: y :: l'
      else y :: insert_desc x l'
  end.

Definition sort_createdAt_desc (l : list Doc) : list Doc :=
  foldr insert_desc [] l.

(** A document read from the store is given the schema's defaults for the
    paths it does not have. *)
Definition hydrate (now : Z) (d : Doc) : Doc :=
  mkDoc (_id d) (fields d ∪ defaults now).

(** The keys with a meaning of their own to Mongoose or to MongoDB: the
    identifier, its virtual, the version key, update operators and dotted
    paths. The development covers the request bodies without them. *)
Definition starts_with_dollar (k : string) : bool :=
  match k with
  | String c _ => bool_decide (c = "$"%char)
  | EmptyString => false
  end.

Fixpoint has_dot (k : string) : bool :=
  match k with
  | String c k' => bool_decide (c = "."%char) || has_dot k'
  | EmptyString => false
  end.

Definition reserved_key (k : string) : bool :=
  bool_decide (k = "_id") || bool_decide (k = "id") || bool_decide (k = "__v")
  || starts_with_dollar k || has_dot k.

Definition plain (o : gmap string json) : Prop :=
  map_Forall (fun k _ => reserved_key k = false) o.

Section Service.

(** Three conversions are left to the JavaScript engine and enter as
    parameters. [Date_value v] is the time value of
    [new Date(v.valueOf())] for text, an array or an object, if it is a date
    at all ([Number] and [Date.parse], the latter implementation-defined
    outside the ISO format). [Date_toString t] is the text of a Date, which
    depends on the time zone. [Number_exponential n] is the text of a number
    of magnitude 10^21 or more, which is written with an exponent. *)
Variable Date_value : json -> option Z.
Variable Date_toString : Z -> string.
Variable Number_exponential : Z -> string.

(** [String(n)]: all the digits below 10^21, the exponent form from there. *)
Definition Number_toString (n : Z) : string :=
  if Z.abs n <? 10 ^ 21 then pretty n else Number_exponential n.

Definition castString (v : json) : option bson :=
  match v with
  | JNull => Some BNull
  | JString s => Some (BString s)
  | JNumber n => Some (BString (Number_toString n))
  | JBool b => Some (BString (if b then "true" else "false"))
  | JDate t => Some (BString (Date_toString t))
  | JArray _ => None
  | JObject o =>
      match o !! "_id" with
      | Some (JString (String c s)) => Some (BString (String c s))
      | _ => None
      end
  end.

Definition castDate (v : json) : option bson :=
  match v with
  | JNull => Some BNull
  | JString EmptyString => Some BNull
  | JBool _ => None
  | JNumber n => if valid_time n then Some (BDate n) else None
  | JDate t => Some (BDate t)
  | _ =>
      match Date_value v with
      | Some t => if valid_time t then Some (BDate t) else None
      | None => None
      end
  end.

Fixpoint castStrings (l : list json) : option (list bson) :=
  match l with
  | [] => Some []
  | v :: l' =>
      match castString v, castStrings l' with
      | Some b, Some bs => Some (b :: bs)
      | _, _ => None
      end
  end.

(** [tags: [String]]: a value that is not an array is cast as the array
    holding it. *)
Definition castArrayOfString (v : json) : option bson :=
  match v with
  | JNull => Some BNull
  | JArray l => BArray <$> castStrings l
  | _ => (fun b => BArray [b]) <$> castString v
  end.

Definition cast (t : SchemaType) (v : json) : option bson :=
  match t with
  | SString => castString v
  | SBoolean => castBoolean v
  | SDate => castDate v
  | SArrayOfString => castArrayOfString v
  end.

(** What the schema makes of an object, path by path. Strict mode: a key
    that is no path of the schema is not looked at. *)
Definition casted (o : gmap string json) : gmap string bson :=
  map_imap (fun p sp => o !! p ≫= cast (type_ sp)) paths.

Definition cast_errors (o : gmap string json) : gmap string PathError :=
  map_imap (fun p sp =>
              match o !! p with
              | Some v =>
                  match cast (type_ sp) v with
                  | Some _ => None
                  | None => Some CastFailed
                  end
              | None => None
              end) paths.

(** The required validators over a whole document. *)
Definition required_errors (f : gmap string bson) : gmap string PathError :=
  map_imap (fun p sp =>
              if required sp && negb (checkRequired (f !! p))
              then Some RequiredMissing else None) paths.

(** The required validators over the paths an update sets. *)
Definition update_errors (f : gmap string bson) : gmap string PathError :=
  map_imap (fun p sp =>
              match f !! p with
              | Some b =>
                  if required sp && negb (checkRequired (Some b))
                  then Some RequiredMissing else None
              | None => None
              end) paths.

Definition no_errors (e : gmap string PathError) : bool :=
  match map_to_list e with
  | [] => true
  | _ :: _ => false
  end.

(** *** The model's operations *)

(** [Project.find(filter).sort({ createdAt: -1 })] *)
Definition Project_find_sorted (filter : Doc -> bool) : M (list Doc) :=
  command (fun w =>
    (inr (hydrate (clock w) <$> sort_createdAt_desc (List.filter filter (projects w))), w)).

(** [Project.findById(id)] *)
Definition Project_findById (id : string) : M (option Doc) :=
  match ObjectId_fromHex id with
  | None => throw (CastError {[ "_id" := CastFailed ]})
  | Some oid =>
      command (fun w => (inr (hydrate (clock w) <$> find_id oid (projects w)), w))
  end.

(** [new Project(body)]: an identifier, the body cast path by path, the
    defaults for the paths the body leaves out. Cast failures are kept for
    validation. *)
Record Document : Type := mkDocument {
  doc : Doc;
  invalid : gmap string PathError;
}.

(** The identifier a body asks for: the generated one where the body has no
    [_id], the one its [_id] denotes where that is text of 24 hexadecimal
    digits, none where the cast of [_id] fails. An [_id] that is no text is
    outside the development (see [plain]) and is taken as a failed cast. *)
Definition payload_id (o : gmap string json) (generated : ObjectId)
  : option ObjectId :=
  match o !! "_id" with
  | None => Some generated
  | Some (JString s) => ObjectId_fromHex s
  | Some _ => None
  end.

(** The cast failures of a body, the one of its [_id] included. *)
Definition id_errors (id : option ObjectId) (e : gmap string PathError)
  : gmap string PathError :=
  match id with
  | Some _ => e
  | None => <["_id" := CastFailed]> e
  end.

(** The generator of identifiers is left abstract as a counter, and what it
    generates is new to the collection: it is kept past the identifier of the
    document, the generated one or the one the body asks for. *)
Definition new_Project (o : gmap string json) : M Document :=
  fun w =>
    let id := payload_id o (next_oid w) in
    let oid := default (next_oid w) id in
    (inr (mkDocument
            (mkDoc oid (casted o ∪ defaults (clock w)))
            (id_errors id (cast_errors o))),
     set_next_oid (N.max (next_oid w) oid + 1)%N w).

(** [insertOne]: the collection has a unique index on the identifier. *)
Definition insertOne (d : Doc) : M Doc :=
  command (fun w =>
    if existsb (has_id (_id d)) (projects w)
    then (inl (MongoServerError 11000), w)
    else (inr d, set_projects (projects w ++ [d]) w)).

(** [document.save()] of a new document: validate, then insert with
    version key 0. *)
Definition save (d : Document) : M Doc :=
  let errors := invalid d ∪ required_errors (fields (doc d)) in
  if no_errors errors
  then insertOne (mkDoc (_id (doc d)) (<["__v" := BInt 0]> (fields (doc d))))
  else throw (ValidationError errors).

(** [Project.findByIdAndUpdate(id, update, { new: true, runValidators: true })]
    for an update without operators: its keys are the paths to set. The
    update is cast and validated before it is sent. *)
Definition Project_findByIdAndUpdate (id : string) (update : gmap string json)
  : M (option Doc) :=
  match ObjectId_fromHex id with
  | None => throw (CastError {[ "_id" := CastFailed ]})
  | Some oid =>
      if negb (no_errors (cast_errors update))
      then throw (CastError (cast_errors update))
      else
        let set := casted update in
        if negb (no_errors (update_errors set))
        then throw (ValidationError (update_errors set))
        else
          command (fun w =>
            match find_id oid (projects w) with
            | None => (inr None, w)
            | Some d =>
                let d' := mkDoc (_id d) (set ∪ fields d) in
                (inr (Some (hydrate (clock w) d')),
                 set_projects (update_first oid (fun _ => d') (projects w)) w)
            end)
  end.

(** [Project.findByIdAndDelete(id)] *)
Definition Project_findByIdAndDelete (id : string) : M (option Doc) :=
  match ObjectId_fromHex id with
  | None => throw (CastError {[ "_id" := CastFailed ]})
  | Some oid =>
      command (fun w =>
        match find_id oid (projects w) with
        | None => (inr None, w)
        | Some d =>
            (inr (Some (hydrate (clock w) d)),
             set_projects (remove_first oid (projects w)) w)
        end)
  end.

(** *** The route handlers *)

(** [!mongoose.connection.readyState] *)
Definition not_ready (rs : Z) : bool := rs =? 0.

(** [GET /api/projects] *)
Definition get_projects : M Response :=
  try_catch
    (rs <- get_readyState ;;
     if not_ready rs then throw (JsError "Database not connected")
     else
       projects <- Project_find_sorted (fun _ => true) ;;
       ret (mkResponse 200 (JsonDocs projects)))
    (fun error =>
       console_error "Error fetching projects:" error ;;;
       ret (mkResponse 500 (JsonError "Failed to fetch projects"))).

(** [GET /api/projects/featured] *)
Definition get_projects_featured : M Response :=
  try_catch
    (featuredProjects <- Project_find_sorted is_featured ;;
     ret (mkResponse 200 (JsonDocs featuredProjects)))
    (fun error =>
       console_error "Error fetching featured projects:" error ;;;
       ret (mkResponse 500 (JsonError "Failed to fetch featured projects"))).

(** [GET /api/projects/:id] *)
Definition get_project (projectId : string) : M Response :=
  try_catch
    (rs <- get_readyState ;;
     if not_ready rs then throw (JsError "Database not connected")
     else
       console_log "Fetching project with ID:" projectId ;;;
       if negb (isValid projectId) then
         console_log "Invalid project ID format:" projectId ;;;
         ret (mkResponse 400 (JsonMessage "Invalid project ID format"))
       else
         project <- Project_findById projectId ;;
         console_log "Found project:"
           (match project with Some _ => "yes" | None => "no" end) ;;;
         match project with
         | None => ret (mkResponse 404 (JsonMessage "Project not found"))
         | Some p => ret (mkResponse 200 (JsonDoc p))
         end)
    (fun error =>
       console_error "Error fetching project:" error ;;;
       ret (mkResponse 500 (JsonError "Failed to fetch project"))).

(** [POST /api/projects] *)
Definition post_project (req_body : gmap string json) : M Response :=
  try_catch
    (rs <- get_readyState ;;
     if not_ready rs then throw (JsError "Database not connected")
     else
       newProject <- new_Project req_body ;;
       saved <- save newProject ;;
       ret (mkResponse 201 (JsonDoc saved)))
    (fun error =>
       console_error "Error adding project:" error ;;;
       ret (mkResponse 500 (JsonError "Failed to add project"))).

(** [PUT /api/projects/:id] *)
Definition put_project (projectId : string) (req_body : gmap string json)
  : M Response :=
  try_catch
    (rs <- get_readyState ;;
     if not_ready rs then throw (JsError "Database not connected")
     else
       console_log "Updating project with ID:" projectId ;;;
       if negb (isValid projectId) then
         console_log "Invalid project ID format:" projectId ;;;
         ret (mkResponse 400 (JsonMessage "Invalid project ID format"))
       else
         now <- Date_now ;;
         updatedProject <-
           Project_findByIdAndUpdate projectId
             (<["updatedAt" := JDate now]> req_body) ;;
         match updatedProject with
         | None => ret (mkResponse 404 (JsonMessage "Project not found"))
         | Some p => ret (mkResponse 200 (JsonDoc p))
         end)
    (fun error =>
       console_error "Error updating project:" error ;;;
       ret (mkResponse 500 (JsonError "Failed to update project"))).

(** [DELETE /api/projects/:id] *)
Definition delete_project (projectId : string) : M Response :=
  try_catch
    (rs <- get_readyState ;;
     if not_ready rs then throw (JsError "Database not connected")
     else
       console_log "Deleting project with ID:" projectId ;;;
       if negb (isValid projectId) then
         console_log "Invalid project ID format:" projectId ;;;
         ret (mkResponse 400 (JsonMessage "Invalid project ID format"))
       else
         deletedProject <- Project_findByIdAndDelete projectId ;;
         match deletedProject with
         | None => ret (mkResponse 404 (JsonMessage "Project not found"))
         | Some _ => ret (mkResponse 200 (JsonMessage "Project deleted successfully"))
         end)
    (fun error =>
       console_error "Error deleting project:" error ;;;
       ret (mkResponse 500 (JsonError "Failed to delete project"))).

(** A handler's own [catch] answers every error; one that escaped it
    would reach the error-handling middleware. *)
Definition serve (h : M Response) (w : World) : Response * World :=
  match h w with
  | (inr r, w') => (r, w')
  | (inl _, w') => (mkResponse 500 (JsonError "Something broke!"), w')
  end.

(** *** Requests and runs *)

Inductive Request : Type :=
| List
| ListFeatured
| Get (id : string)
| Create (payload : gmap string json)
| Update (id : string) (payload : gmap string json)
| Delete (id : string).

Definition route (r : Request) : M Response :=
  match r with
  | List => get_projects
  | ListFeatured => get_projects_featured
  | Get id => get_project id
  | Create payload => post_project payload
  | Update id payload => put_project id payload
  | Delete id => delete_project id
  end.




(** ** The vocabulary of the specification *)

Definition InvalidIdentifier : Response :=
  mkResponse 400 (JsonMessage "Invalid project ID format").

Definition NotFound : Response :=
  mkResponse 404 (JsonMessage "Project not found").

(** The store is available: the connection is open. *)
Definition available (w : World) : Prop := readyState w = 1.

(** The store is unavailable in the sense of the handlers' guard. *)
Definition unavailable (w : World) : Prop := readyState w = 0.

(** The collection has a record with identifier [oid]. *)
Definition exists_id (oid : ObjectId) (w : World) : Prop :=
  exists d, d ∈ projects w /\ _id d = oid.

(** The paths that carry a default. *)
Definition defaulted_paths : list string :=
  Eval vm_compute in (map_to_list (defaults 0)).*1.

(** A record as the schema shapes it: it has every path that carries a
    default, and its [createdAt] is a date or null. *)
Definition shaped (d : Doc) : bool :=
  forallb (fun p => bool_decide (is_Some (fields d !! p))) defaulted_paths
  && match fields d !! "createdAt" with
     | Some BNull | Some (BDate _) => true
     | _ => false
     end.

(** The invariant of the collection: identifiers are unique and older than
    the next generated one, and the records are shaped by the schema. *)
Record store_ok (w : World) : Prop := mk_store_ok {
  ids_unique : NoDup (_id <$> projects w);
  ids_older : Forall (fun d => (_id d < next_oid w)%N) (projects w);
  docs_shaped : Forall (fun d => shaped d) (projects w);
}.

(** ** Basic facts *)

Ltac unfold_monad :=
  unfold serve, try_catch, bind, ret, throw, get_readyState, Date_now,
    console_log, console_error, command, not_ready.

Lemma isValid_false id : isValid id = false <-> ObjectId_fromHex id = None.
Proof. unfold isValid. destruct (ObjectId_fromHex id); split; congruence. Qed.

Lemma isValid_true id :
  isValid id = true <-> exists oid, ObjectId_fromHex id = Some oid.
Proof.
  unfold isValid. destruct (ObjectId_fromHex id); split; try congruence; eauto.
  intros [? ?]. congruence.
Qed.

Lemma defaults_lookup now p :
  defaults now !! p = paths !! p ≫= default_value now.
Proof. unfold defaults. by rewrite lookup_omap. Qed.

Lemma defaults_keys now now' p :
  is_Some (defaults now !! p) -> is_Some (defaults now' !! p).
Proof.
  rewrite !defaults_lookup. destruct (paths !! p) as [sp|]; simpl; [|done].
  unfold default_value. destruct (default_ sp), (type_ sp); simpl; eauto.
  all: by intros [? ?].
Qed.

Lemma no_errors_empty e : no_errors e = true <-> e = ∅.
Proof.
  unfold no_errors. rewrite <- map_to_list_empty_iff.
  by destruct (map_to_list e).
Qed.

Lemma no_errors_lookup e : no_errors e = true <-> forall p, e !! p = None.
Proof. rewrite no_errors_empty. apply map_empty. Qed.

Lemma has_errors_lookup e p x : e !! p = Some x -> no_errors e = false.
Proof.
  intros H. destruct (no_errors e) eqn:E; [|done].
  apply no_errors_lookup with (p := p) in E. congruence.
Qed.

Lemma casted_lookup o p :
  casted o !! p = paths !! p ≫= fun sp => o !! p ≫= cast (type_ sp).
Proof. unfold casted. by rewrite map_lookup_imap. Qed.

Lemma cast_errors_lookup o p :
  cast_errors o !! p =
    paths !! p ≫= fun sp =>
      match o !! p with
      | Some v =>
          match cast (type_ sp) v with
          | Some _ => None
          | None => Some CastFailed
          end
      | None => None
      end.
Proof. unfold cast_errors. by rewrite map_lookup_imap. Qed.

Lemma required_errors_lookup f p :
  required_errors f !! p =
    paths !! p ≫= fun sp =>
      if required sp && negb (checkRequired (f !! p))
      then Some RequiredMissing else None.
Proof. unfold required_errors. by rewrite map_lookup_imap. Qed.

Lemma update_errors_lookup f p :
  update_errors f !! p =
    paths !! p ≫= fun sp =>
      match f !! p with
      | Some b =>
          if required sp && negb (checkRequired (Some b))
          then Some RequiredMissing else None
      | None => None
      end.
Proof. unfold update_errors. by rewrite map_lookup_imap. Qed.

(** The paths of the schema, one by one. *)
Lemma paths_cases (P : string -> SchemaPath -> Prop) :
  Forall (fun '(p, sp) => P p sp) projectSchema ->
  forall p sp, paths !! p = Some sp -> P p sp.
Proof.
  intros H p sp Hp. unfold paths in Hp. apply elem_of_list_to_map_2 in Hp.
  rewrite Forall_forall in H. by apply (H (p, sp)).
Qed.

Lemma string_paths p :
  p = "title" \/ p = "description" \/ p = "image" ->
  paths !! p = Some (mkPath SString true NoDefault).
Proof. by intros [->|[->| ->]]. Qed.

Lemma defaults_featured now : defaults now !! "featured" = Some (BBool false).
Proof. by rewrite defaults_lookup. Qed.

Lemma date_paths p :
  p = "createdAt" \/ p = "updatedAt" ->
  paths !! p = Some (mkPath SDate false DefaultNow).
Proof. by intros [->| ->]. Qed.

Lemma defaults_dates now p :
  p = "createdAt" \/ p = "updatedAt" -> defaults now !! p = Some (BDate now).
Proof. intros Hp. by rewrite defaults_lookup, (date_paths p Hp). Qed.

Lemma defaults_text now p :
  p = "title" \/ p = "description" \/ p = "image" -> defaults now !! p = None.
Proof. intros Hp. by rewrite defaults_lookup, (string_paths p Hp). Qed.

Lemma defaulted_paths_eq : defaulted_paths = (map_to_list (defaults 0)).*1.
Proof. vm_compute. reflexivity. Qed.

#[local] Opaque paths defaults casted cast_errors required_errors
  update_errors no_errors defaulted_paths.

Lemma defaulted_paths_spec now p :
  is_Some (defaults now !! p) -> p ∈ defaulted_paths.
Proof.
  intros H. apply (defaults_keys now 0) in H as [b Hb].
  rewrite defaulted_paths_eq.
  apply list_elem_of_fmap. exists (p, b). split; [done|].
  by apply elem_of_map_to_list.
Qed.

Lemma shaped_has d p :
  shaped d -> p ∈ defaulted_paths -> is_Some (fields d !! p).
Proof.
  unfold shaped. intros H Hp. apply andb_True in H as [H _].
  apply Is_true_true in H. rewrite forallb_forall in H.
  apply list_elem_of_In in Hp. specialize (H p Hp).
  by apply bool_decide_eq_true in H.
Qed.

Lemma hydrate_shaped now d : shaped d -> hydrate now d = d.
Proof.
  intros Hd. destruct d as [i f]. unfold hydrate. simpl. f_equal.
  apply map_eq. intros p. rewrite lookup_union.
  destruct (f !! p) as [b|] eqn:E.
  - by destruct (defaults now !! p).
  - destruct (defaults now !! p) eqn:E'; [|done].
    destruct (shaped_has _ p Hd) as [b' Hb'].
    + eapply defaulted_paths_spec. by rewrite E'.
    + simpl in Hb'. congruence.
Qed.

Lemma find_id_Some oid l d : find_id oid l = Some d -> d ∈ l /\ _id d = oid.
Proof.
  unfold find_id. intros H. apply find_some in H as [H1 H2]. split.
  - by apply list_elem_of_In.
  - unfold has_id in H2. by apply N.eqb_eq.
Qed.

Lemma find_id_None oid l :
  find_id oid l = None <-> (forall d, d ∈ l -> _id d <> oid).
Proof.
  unfold find_id. split.
  - intros H d Hd. apply list_elem_of_In in Hd.
    pose proof (find_none _ _ H d Hd) as Hn. unfold has_id in Hn.
    by apply N.eqb_neq.
  - intros H. induction l as [|x l IH]; [done|]. simpl.
    destruct (has_id oid x) eqn:E.
    + unfold has_id in E. apply N.eqb_eq in E. exfalso.
      apply (H x); [left|done].
    + apply IH. intros d Hd. apply H. by right.
Qed.

Lemma find_id_unique oid l d :
  NoDup (_id <$> l) -> d ∈ l -> _id d = oid -> find_id oid l = Some d.
Proof.
  intros Hnd Hd Hid. induction l as [|x l IH]; [by apply elem_of_nil in Hd|].
  simpl in *. apply NoDup_cons in Hnd as [Hx Hnd].
  unfold find_id. simpl. destruct (has_id oid x) eqn:E.
  - unfold has_id in E. apply N.eqb_eq in E.
    apply elem_of_cons in Hd as [->|Hd]; [done|].
    exfalso. apply Hx. apply list_elem_of_fmap. exists d. split; [congruence|done].
  - apply elem_of_cons in Hd as [->|Hd].
    + unfold has_id in E. apply N.eqb_neq in E. congruence.
    + by apply IH.
Qed.

Lemma find_id_absent oid w : ~ exists_id oid w -> find_id oid (projects w) = None.
Proof.
  intros H. apply find_id_None. intros d Hd Hid. apply H. by exists d.
Qed.

(** ** The handlers, equation by equation *)

Lemma get_project_unavailable id w :
  unavailable w ->
  serve (get_project id) w =
    (mkResponse 500 (JsonError "Failed to fetch project"),
     print (LogError "Error fetching project:" (JsError "Database not connected")) w).
Proof.
  intros H. unfold get_project. unfold_monad. unfold unavailable in H.
  by rewrite H.
Qed.

Lemma get_project_invalid id w :
  readyState w <> 0 -> isValid id = false ->
  serve (get_project id) w =
    (InvalidIdentifier,
     print (Log "Invalid project ID format:" id)
       (print (Log "Fetching project with ID:" id) w)).
Proof.
  intros H Hid. unfold get_project. unfold_monad.
  apply Z.eqb_neq in H. by rewrite H, Hid.
Qed.

Lemma get_project_valid id oid w :
  available w -> ObjectId_fromHex id = Some oid ->
  serve (get_project id) w =
    (match find_id oid (projects w) with
     | None => NotFound
     | Some d => mkResponse 200 (JsonDoc (hydrate (clock w) d))
     end,
     print (Log "Found project:"
              (match find_id oid (projects w) with Some _ => "yes" | None => "no" end))
       (print (Log "Fetching project with ID:" id) w)).
Proof.
  intros H Hid. unfold get_project, Project_findById, isValid. unfold_monad.
  unfold available in H. rewrite H, Hid. simpl. rewrite H. simpl.
  by destruct (find_id oid (projects w)).
Qed.

Lemma delete_project_unavailable id w :
  unavailable w ->
  serve (delete_project id) w =
    (mkResponse 500 (JsonError "Failed to delete project"),
     print (LogError "Error deleting project:" (JsError "Database not connected")) w).
Proof.
  intros H. unfold delete_project. unfold_monad. unfold unavailable in H.
  by rewrite H.
Qed.

Lemma delete_project_invalid id w :
  readyState w <> 0 -> isValid id = false ->
  serve (delete_project id) w =
    (InvalidIdentifier,
     print (Log "Invalid project ID format:" id)
       (print (Log "Deleting project with ID:" id) w)).
Proof.
  intros H Hid. unfold delete_project. unfold_monad.
  apply Z.eqb_neq in H. by rewrite H, Hid.
Qed.

Lemma delete_project_valid id oid w :
  available w -> ObjectId_fromHex id = Some oid ->
  serve (delete_project id) w =
    match find_id oid (projects w) with
    | None => (NotFound, print (Log "Deleting project with ID:" id) w)
    | Some _ =>
        (mkResponse 200 (JsonMessage "Project deleted successfully"),
         set_projects (remove_first oid (projects w))
           (print (Log "Deleting project with ID:" id) w))
    end.
Proof.
  intros H Hid. unfold delete_project, Project_findByIdAndDelete, isValid.
  unfold_monad. unfold available in H. rewrite H, Hid. simpl. rewrite H. simpl.
  by destruct (find_id oid (projects w)).
Qed.

Lemma filter_all {A} (l : list A) : List.filter (fun _ => true) l = l.
Proof. induction l as [|x l IH]; simpl; [done|by rewrite IH]. Qed.

Lemma get_projects_unavailable w :
  unavailable w ->
  serve get_projects w =
    (mkResponse 500 (JsonError "Failed to fetch projects"),
     print (LogError "Error fetching projects:" (JsError "Database not connected")) w).
Proof.
  intros H. unfold get_projects. unfold_monad. unfold unavailable in H.
  by rewrite H.
Qed.

Lemma get_projects_available w :
  available w ->
  serve get_projects w =
    (mkResponse 200
       (JsonDocs (hydrate (clock w) <$> sort_createdAt_desc (projects w))), w).
Proof.
  intros H. unfold get_projects, Project_find_sorted. unfold_monad.
  unfold available in H. rewrite H. simpl. rewrite H. simpl.
  by rewrite filter_all.
Qed.

Lemma get_projects_featured_available w :
  available w ->
  serve get_projects_featured w =
    (mkResponse 200
       (JsonDocs (hydrate (clock w) <$>
                    sort_createdAt_desc (List.filter is_featured (projects w)))), w).
Proof.
  intros H. unfold get_projects_featured, Project_find_sorted. unfold_monad.
  unfold available in H. simpl. by rewrite H.
Qed.

Lemma put_project_unavailable id o w :
  unavailable w ->
  serve (put_project id o) w =
    (mkResponse 500 (JsonError "Failed to update project"),
     print (LogError "Error updating project:" (JsError "Database not connected")) w).
Proof.
  intros H. unfold put_project. unfold_monad. unfold unavailable in H.
  by rewrite H.
Qed.

Lemma put_project_invalid id o w :
  readyState w <> 0 -> isValid id = false ->
  serve (put_project id o) w =
    (InvalidIdentifier,
     print (Log "Invalid project ID format:" id)
       (print (Log "Updating project with ID:" id) w)).
Proof.
  intros H Hid. unfold put_project. unfold_monad.
  apply Z.eqb_neq in H. by rewrite H, Hid.
Qed.

(** The object the update handler hands to [findByIdAndUpdate]. *)
Definition update_of (o : gmap string json) (w : World) : gmap string json :=
  <["updatedAt" := JDate (clock w)]> o.

Lemma put_project_valid id oid o w :
  available w -> ObjectId_fromHex id = Some oid ->
  no_errors (cast_errors (update_of o w)) = true ->
  no_errors (update_errors (casted (update_of o w))) = true ->
  serve (put_project id o) w =
    match find_id oid (projects w) with
    | None => (NotFound, print (Log "Updating project with ID:" id) w)
    | Some d =>
        let d' := mkDoc (_id d) (casted (update_of o w) ∪ fields d) in
        (mkResponse 200 (JsonDoc (hydrate (clock w) d')),
         set_projects (update_first oid (fun _ => d') (projects w))
           (print (Log "Updating project with ID:" id) w))
    end.
Proof.
  intros H Hid Hc Hv.
  unfold put_project, Project_findByIdAndUpdate, isValid.
  unfold_monad. unfold available in H. rewrite H, Hid. simpl.
  unfold update_of in *. rewrite Hc. simpl. rewrite Hv. simpl. rewrite H.
  simpl. by destruct (find_id oid (projects w)).
Qed.

(** ** The collection under removal *)

Lemma remove_first_subset oid l d : d ∈ remove_first oid l -> d ∈ l.
Proof.
  induction l as [|x l IH]; simpl; [done|].
  destruct (has_id oid x).
  - intros H. by right.
  - intros [->|H]%elem_of_cons; [left|right; auto].
Qed.

Lemma remove_first_gone oid l d :
  NoDup (_id <$> l) -> d ∈ remove_first oid l -> _id d <> oid.
Proof.
  induction l as [|x l IH]; simpl; [by intros _ H%elem_of_nil|].
  intros [Hx Hnd]%NoDup_cons. destruct (has_id oid x) eqn:E.
  - unfold has_id in E. apply N.eqb_eq in E. intros Hd Hid. apply Hx.
    apply list_elem_of_fmap. exists d. split; [congruence|done].
  - intros [->|Hd]%elem_of_cons.
    + unfold has_id in E. by apply N.eqb_neq in E.
    + by apply IH.
Qed.

Lemma remove_first_ids oid l :
  (_id <$> remove_first oid l) `sublist_of` (_id <$> l).
Proof.
  induction l as [|x l IH]; simpl; [done|].
  destruct (has_id oid x); simpl.
  - by apply sublist_cons.
  - by apply sublist_skip.
Qed.

Lemma remove_first_absent oid l : find_id oid l = None -> remove_first oid l = l.
Proof.
  unfold find_id. induction l as [|x l IH]; simpl; [done|].
  destruct (has_id oid x); [done|]. intros H. by rewrite IH.
Qed.

(** ** Sorting *)

(** [a] may stand before [b] in a listing by [createdAt], latest first. *)
Definition latest_first (a b : Doc) : Prop :=
  key_le (createdAt_key b) (createdAt_key a).

Lemma key_le_total a b : key_le a b = false -> key_le b a = true.
Proof.
  destruct a as [x|], b as [y|]; simpl; try done.
  intros H. apply Z.leb_gt in H. apply Z.leb_le. lia.
Qed.

Lemma key_le_trans a b c :
  key_le a b = true -> key_le b c = true -> key_le a c = true.
Proof.
  destruct a as [x|], b as [y|], c as [z|]; simpl; try done.
  intros H1%Z.leb_le H2%Z.leb_le. apply Z.leb_le. lia.
Qed.

Lemma insert_desc_perm x l : insert_desc x l ≡ₚ x :: l.
Proof.
  induction l as [|y l IH]; simpl; [done|].
  destruct (key_le (createdAt_key y) (createdAt_key x)); [done|].
  rewrite IH. apply Permutation_swap.
Qed.

Lemma sort_createdAt_desc_perm l : sort_createdAt_desc l ≡ₚ l.
Proof.
  induction l as [|x l IH]; simpl; [done|].
  rewrite insert_desc_perm. by rewrite IH.
Qed.

Lemma insert_desc_sorted x l :
  StronglySorted latest_first l -> StronglySorted latest_first (insert_desc x l).
Proof.
  induction 1 as [|y l Hs IH Hy]; simpl.
  - repeat constructor.
  - destruct (key_le (createdAt_key y) (createdAt_key x)) eqn:E.
    + constructor; [by constructor|]. constructor.
      * unfold latest_first. by rewrite E.
      * eapply Forall_impl; [exact Hy|]. unfold latest_first. intros z Hz.
        apply Is_true_true in Hz. apply Is_true_true.
        by eapply key_le_trans.
    + constructor; [done|]. rewrite insert_desc_perm. constructor; [|done].
      unfold latest_first. apply key_le_total in E. by rewrite E.
Qed.

Lemma sort_createdAt_desc_sorted l :
  StronglySorted latest_first (sort_createdAt_desc l).
Proof.
  induction l as [|x l IH]; simpl; [constructor|by apply insert_desc_sorted].
Qed.

(** Filtering a sorted listing and then inserting is inserting and then
    filtering: records with equal keys never change places. *)
Lemma filter_insert_desc (P : Doc -> bool) x l :
  StronglySorted latest_first l ->
  List.filter P (insert_desc x l) =
    if P x then insert_desc x (List.filter P l) else List.filter P l.
Proof.
  induction 1 as [|y l Hs IH Hy]; simpl.
  - by destruct (P x).
  - destruct (key_le (createdAt_key y) (createdAt_key x)) eqn:E; simpl.
    + destruct (P x) eqn:Px; [|done]. destruct (P y) eqn:Py; simpl.
      * by rewrite E.
      * clear IH. induction l as [|z l IHl]; simpl; [done|].
        apply Forall_cons in Hy as [Hz Hy].
        apply StronglySorted_inv in Hs as [Hs Hz'].
        destruct (P z); simpl.
        -- unfold latest_first in Hz. apply Is_true_true in Hz.
           by rewrite (key_le_trans _ _ _ Hz E).
        -- by apply IHl.
    + rewrite IH. destruct (P y) eqn:Py, (P x) eqn:Px; simpl; try done.
      by rewrite E.
Qed.

Lemma filter_sort_createdAt_desc (P : Doc -> bool) l :
  List.filter P (sort_createdAt_desc l) = sort_createdAt_desc (List.filter P l).
Proof.
  induction l as [|x l IH]; simpl; [done|].
  rewrite filter_insert_desc by apply sort_createdAt_desc_sorted.
  rewrite IH. by destruct (P x).
Qed.

Lemma filter_fmap {A B} (f : A -> B) (P : B -> bool) (l : list A) :
  List.filter P (f <$> l) = f <$> List.filter (fun a => P (f a)) l.
Proof.
  induction l as [|x l IH]; [done|]. rewrite fmap_cons. simpl.
  destruct (P (f x)); rewrite ?fmap_cons; by rewrite IH.
Qed.

Lemma filter_ext_bool {A} (P Q : A -> bool) (l : list A) :
  (forall a, P a = Q a) -> List.filter P l = List.filter Q l.
Proof.
  intros H. induction l as [|x l IH]; simpl; [done|]. by rewrite H, IH.
Qed.

Lemma is_featured_hydrate now d : is_featured (hydrate now d) = is_featured d.
Proof.
  unfold is_featured, hydrate. simpl. rewrite lookup_union, defaults_featured.
  by destruct (fields d !! "featured").
Qed.

(** ** Reading: Get by id, List, List Featured *)

(** C2, with the connection open: a Get by id with a malformed id is answered
    InvalidIdentifier (400); with a well-formed id that no record has it is
    answered NotFound (404); otherwise the answer is 200 with the record of
    that id. With the connection in state 0 every id is answered 500. *)
Theorem get_by_id_outcomes (id : string) (w : World) :
  available w ->
  store_ok w ->
  (isValid id = false ->
   (serve (get_project id) w).1 = InvalidIdentifier) /\
  (forall oid, ObjectId_fromHex id = Some oid -> ~ exists_id oid w ->
   (serve (get_project id) w).1 = NotFound) /\
  (forall oid d, ObjectId_fromHex id = Some oid -> d ∈ projects w -> _id d = oid ->
   (serve (get_project id) w).1 = mkResponse 200 (JsonDoc d)).
Proof.
  intros Ha Hok. split; [|split].
  - intros Hid. rewrite get_project_invalid; [done| |done].
    unfold available in Ha. lia.
  - intros oid Hid Hno. rewrite (get_project_valid id oid) by done.
    by rewrite find_id_absent.
  - intros oid d Hid Hd Hoid. rewrite (get_project_valid id oid) by done.
    rewrite (find_id_unique oid _ d); [|apply Hok|done|done]. simpl.
    rewrite hydrate_shaped; [done|].
    destruct Hok as [_ _ Hs]. rewrite Forall_forall in Hs. by apply Hs.
Qed.

(** C4, as the code has it: while the connection is not in state 0, a Get,
    Update or Delete whose path id is malformed is answered 400, whatever the
    collection holds and whatever the body, and the collection is left as it
    was. *)
Theorem malformed_id_is_400 (id : string) (o : gmap string json) (w : World) :
  readyState w <> 0 ->
  isValid id = false ->
  (status (serve (get_project id) w).1 = 400 /\
   status (serve (put_project id o) w).1 = 400 /\
   status (serve (delete_project id) w).1 = 400) /\
  (projects (serve (get_project id) w).2 = projects w /\
   projects (serve (put_project id o) w).2 = projects w /\
   projects (serve (delete_project id) w).2 = projects w).
Proof.
  intros Hr Hid.
  rewrite get_project_invalid, put_project_invalid, delete_project_invalid
    by done.
  done.
Qed.

(** With the connection in state 0 the same requests are answered 500: the
    guard on the connection comes before the check of the id. *)
Lemma malformed_id_unavailable (id : string) (o : gmap string json) (w : World) :
  unavailable w ->
  status (serve (get_project id) w).1 = 500 /\
  status (serve (put_project id o) w).1 = 500 /\
  status (serve (delete_project id) w).1 = 500.
Proof.
  intros H.
  by rewrite get_project_unavailable, put_project_unavailable,
    delete_project_unavailable.
Qed.

(** C7, with the connection open: List and List Featured are both answered
    200, and the records of List Featured are the records of List that have
    the field [featured] stored as [true], each as often and in the order List
    has them: a record is among them exactly if List has it with [featured]
    true. *)
Theorem featured_is_list_filtered (w : World) :
  available w ->
  exists listed featured,
    (serve get_projects w).1 = mkResponse 200 (JsonDocs listed) /\
    (serve get_projects_featured w).1 = mkResponse 200 (JsonDocs featured) /\
    featured =
      List.filter
        (fun d => match fields d !! "featured" with
                  | Some (BBool true) => true
                  | _ => false
                  end)
        listed /\
    featured `sublist_of` listed /\
    (forall d, d ∈ featured <->
               d ∈ listed /\ fields d !! "featured" = Some (BBool true)).
Proof.
  intros Ha. eexists _, _.
  rewrite get_projects_available, get_projects_featured_available by done.
  split; [done|]. split; [done|]. simpl.
  assert (hydrate (clock w) <$>
            sort_createdAt_desc (List.filter is_featured (projects w)) =
          List.filter
            (fun d => match fields d !! "featured" with
                      | Some (BBool true) => true
                      | _ => false
                      end)
            (hydrate (clock w) <$> sort_createdAt_desc (projects w))) as ->.
  { rewrite filter_fmap, filter_sort_createdAt_desc. f_equal. f_equal.
    apply filter_ext_bool. intros d. apply eq_sym, is_featured_hydrate. }
  split; [done|]. split.
  - generalize (hydrate (clock w) <$> sort_createdAt_desc (projects w)).
    intros l. induction l as [|x l IH]; simpl; [done|].
    destruct (match fields x !! "featured" with
              | Some (BBool true) => true
              | _ => false
              end); [by apply sublist_skip|by apply sublist_cons].
  - intros d. rewrite !list_elem_of_In, filter_In.
    destruct (fields d !! "featured") as [[| |[|]| | | ]|];
      split; intros [? ?]; done.
Qed.

Lemma StronglySorted_lookup_lt {A} (R : A -> A -> Prop) l i j a b :
  StronglySorted R l -> (i < j)%nat ->
  l !! i = Some a -> l !! j = Some b -> R a b.
Proof.
  intros Hs. revert i j. induction Hs as [|x l Hs IH Hx]; intros i j Hij Hi Hj.
  - by rewrite lookup_nil in Hi.
  - destruct j as [|j]; [lia|]. destruct i as [|i]; simpl in Hi, Hj.
    + injection Hi as <-. rewrite Forall_forall in Hx. apply Hx.
      by eapply list_elem_of_lookup_2.
    + apply (IH i j); [lia|done|done].
Qed.

Lemma latest_first_dates a b tb :
  latest_first a b ->
  fields b !! "createdAt" = Some (BDate tb) ->
  exists ta, fields a !! "createdAt" = Some (BDate ta) /\ tb <= ta.
Proof.
  unfold latest_first, createdAt_key. intros H Hb. rewrite Hb in H.
  destruct (fields a !! "createdAt") as [[| | |ta| | ]|]; simpl in H; try done.
  exists ta. split; [done|]. apply Is_true_true in H. by apply Z.leb_le.
Qed.

(** C8, with the connection open: List answers 200 with all the records of
    the collection, each once and however many they are, and leaves the world
    as it was. The order is by [createdAt], latest first: a record that has a
    date has before it only records with a date that is not earlier, so the
    records without a date come last. *)
Theorem list_outcome (w : World) :
  available w ->
  store_ok w ->
  exists listed,
    serve get_projects w = (mkResponse 200 (JsonDocs listed), w) /\
    listed ≡ₚ projects w /\
    length listed = length (projects w) /\
    (forall i j a b tb,
       (i < j)%nat -> listed !! i = Some a -> listed !! j = Some b ->
       fields b !! "createdAt" = Some (BDate tb) ->
       exists ta, fields a !! "createdAt" = Some (BDate ta) /\ tb <= ta).
Proof.
  intros Ha Hok. exists (sort_createdAt_desc (projects w)).
  rewrite get_projects_available by done.
  assert (hydrate (clock w) <$> sort_createdAt_desc (projects w)
          = sort_createdAt_desc (projects w)) as ->.
  { rewrite <- (list_fmap_id (sort_createdAt_desc (projects w))) at 2.
    apply list_fmap_ext. intros i d Hd. simpl. apply hydrate_shaped.
    destruct Hok as [_ _ Hs]. rewrite Forall_forall in Hs. apply Hs.
    rewrite <- sort_createdAt_desc_perm. by eapply list_elem_of_lookup_2. }
  split; [done|]. split; [apply sort_createdAt_desc_perm|].
  split; [by rewrite sort_createdAt_desc_perm|].
  intros i j a b tb Hij Hi Hj Hb. apply (latest_first_dates a b tb); [|done].
  by apply (StronglySorted_lookup_lt _ _ i j a b
              (sort_createdAt_desc_sorted (projects w))).
Qed.

(** ** Creating *)

(** The payload supplies text of positive length for path [p]. *)
Definition supplies_text (o : gmap string json) (p s : string) : Prop :=
  o !! p = Some (JString s) /\ s <> "".

(** The payload leaves path [p] out, or supplies the empty text for it. *)
Definition missing_or_empty (o : gmap string json) (p : string) : Prop :=
  o !! p = None \/ o !! p = Some (JString "").

(** Whatever the payload supplies for a path of the schema can be cast to
    the type of that path. *)
Definition castable (o : gmap string json) : Prop :=
  forall p sp v, paths !! p = Some sp -> o !! p = Some v ->
                 is_Some (cast (type_ sp) v).

Lemma castable_no_errors o : castable o <-> cast_errors o = ∅.
Proof.
  rewrite map_empty. split.
  - intros H p. rewrite cast_errors_lookup.
    destruct (paths !! p) as [sp|] eqn:Ep; simpl; [|done].
    destruct (o !! p) as [v|] eqn:Ev; [|done].
    by destruct (H p sp v Ep Ev) as [b ->].
  - intros H p sp v Ep Ev. specialize (H p).
    rewrite cast_errors_lookup, Ep in H. simpl in H. rewrite Ev in H.
    destruct (cast (type_ sp) v); [eauto|done].
Qed.

Lemma required_paths p sp :
  paths !! p = Some sp -> required sp = true ->
  p = "title" \/ p = "description" \/ p = "image".
Proof.
  revert p sp.
  apply (paths_cases (fun p sp => required sp = true ->
                        p = "title" \/ p = "description" \/ p = "image")).
  unfold projectSchema.
  repeat (apply Forall_cons_2); [..|apply Forall_nil_2].
  all: simpl; intros H; try discriminate H; auto.
Qed.

Lemma required_errors_empty f :
  checkRequired (f !! "title") = true ->
  checkRequired (f !! "description") = true ->
  checkRequired (f !! "image") = true ->
  required_errors f = ∅.
Proof.
  intros Ht Hd Hi. apply map_empty. intros p. rewrite required_errors_lookup.
  destruct (paths !! p) as [sp|] eqn:Ep; simpl; [|done].
  destruct (required sp) eqn:Er; simpl; [|done].
  destruct (required_paths p sp Ep Er) as [->|[->| ->]].
  - by rewrite Ht.
  - by rewrite Hd.
  - by rewrite Hi.
Qed.

(** The document [new Project(o)] builds in world [w]. *)
Definition built (o : gmap string json) (w : World) : gmap string bson :=
  casted o ∪ defaults (clock w).

Lemma built_text o w p s :
  p = "title" \/ p = "description" \/ p = "image" ->
  o !! p = Some (JString s) ->
  built o w !! p = Some (BString s).
Proof.
  intros Hp Ho. unfold built. rewrite lookup_union, casted_lookup.
  rewrite (string_paths p Hp). simpl. rewrite Ho. simpl.
  by destruct (defaults (clock w) !! p).
Qed.

Lemma built_missing o w p :
  p = "title" \/ p = "description" \/ p = "image" ->
  missing_or_empty o p ->
  checkRequired (built o w !! p) = false.
Proof.
  intros Hp Ho. unfold built. rewrite lookup_union, casted_lookup.
  rewrite (defaults_text _ p Hp), (string_paths p Hp). simpl.
  by destruct Ho as [-> | ->].
Qed.

Lemma built_default o w p :
  o !! p = None -> built o w !! p = defaults (clock w) !! p.
Proof.
  intros Ho. unfold built. rewrite lookup_union, casted_lookup, Ho.
  destruct (paths !! p); simpl; by destruct (defaults (clock w) !! p).
Qed.

Lemma built_schema o w p : is_Some (built o w !! p) -> is_Some (paths !! p).
Proof.
  unfold built. rewrite lookup_union, casted_lookup, defaults_lookup.
  destruct (paths !! p); simpl; [eauto|]. by intros [? ?].
Qed.

(** What [save] stores for a document it accepts. *)
Definition stored (o : gmap string json) (w : World) : Doc :=
  mkDoc (next_oid w) (<["__v" := BInt 0]> (built o w)).

Lemma plain_no_id o : plain o -> o !! "_id" = None.
Proof.
  intros H. destruct (o !! "_id") as [v|] eqn:E; [|done].
  by apply H in E.
Qed.

Lemma payload_id_plain o generated :
  plain o -> payload_id o generated = Some generated.
Proof. intros H. unfold payload_id. by rewrite (plain_no_id o H). Qed.

Lemma payload_id_cases o generated :
  (o !! "_id" = None /\ payload_id o generated = Some generated) \/
  (exists s, o !! "_id" = Some (JString s) /\
             payload_id o generated = ObjectId_fromHex s) \/
  payload_id o generated = None.
Proof.
  unfold payload_id. destruct (o !! "_id") as [[| | |s| | | ]|]; eauto.
Qed.

#[local] Opaque payload_id.

Lemma post_project_unavailable o w :
  unavailable w ->
  serve (post_project o) w =
    (mkResponse 500 (JsonError "Failed to add project"),
     print (LogError "Error adding project:" (JsError "Database not connected")) w).
Proof.
  intros H. unfold post_project. unfold_monad. unfold unavailable in H.
  by rewrite H.
Qed.

Lemma post_project_invalid o w :
  available w ->
  plain o ->
  no_errors (cast_errors o ∪ required_errors (built o w)) = false ->
  serve (post_project o) w =
    (mkResponse 500 (JsonError "Failed to add project"),
     print (LogError "Error adding project:"
              (ValidationError (cast_errors o ∪ required_errors (built o w))))
       (set_next_oid (next_oid w + 1)%N w)).
Proof.
  intros H Hp He. unfold post_project, new_Project, save. unfold_monad.
  unfold available in H. rewrite H. simpl.
  rewrite (payload_id_plain o _ Hp). simpl. rewrite N.max_id.
  unfold built in He. by rewrite He.
Qed.

Lemma post_project_valid o w :
  available w ->
  plain o ->
  Forall (fun d => (_id d < next_oid w)%N) (projects w) ->
  no_errors (cast_errors o ∪ required_errors (built o w)) = true ->
  serve (post_project o) w =
    (mkResponse 201 (JsonDoc (stored o w)),
     set_projects (projects w ++ [stored o w])
       (set_next_oid (next_oid w + 1)%N w)).
Proof.
  intros H Hp Hold He. unfold post_project, new_Project, save, insertOne.
  unfold_monad. unfold available in H. rewrite H. simpl.
  rewrite (payload_id_plain o _ Hp). simpl. rewrite N.max_id.
  unfold built in He. rewrite He. simpl. rewrite H. simpl.
  assert (existsb (has_id (next_oid w)) (projects w) = false) as ->; [|done].
  induction Hold as [|d l Hd Hl IH]; simpl; [done|].
  rewrite IH, orb_false_r. unfold has_id. apply N.eqb_neq. lia.
Qed.

(** C1, as the code has it. With the store available and a [plain]
    payload, one without the keys Mongoose reads itself: a Create whose
    payload supplies text of positive length for [title], [description] and
    [image], and nothing that cannot be cast for the other paths of the
    schema, is answered 201 with the persisted record, which has a new
    identifier and the three texts of the payload; a Create whose payload
    leaves one of the three out or supplies the empty text for it is answered
    500, the error being a ValidationError on that path, and stores
    nothing. *)
Theorem create_outcomes (o : gmap string json) (w : World) :
  available w ->
  store_ok w ->
  plain o ->
  (forall title description image,
     supplies_text o "title" title ->
     supplies_text o "description" description ->
     supplies_text o "image" image ->
     castable o ->
     exists d w',
       serve (post_project o) w = (mkResponse 201 (JsonDoc d), w') /\
       projects w' = (projects w ++ [d])%list /\
       ~ exists_id (_id d) w /\
       fields d !! "title" = Some (BString title) /\
       fields d !! "description" = Some (BString description) /\
       fields d !! "image" = Some (BString image)) /\
  (forall p,
     p = "title" \/ p = "description" \/ p = "image" ->
     missing_or_empty o p ->
     exists errors w',
       serve (post_project o) w =
         (mkResponse 500 (JsonError "Failed to add project"), w') /\
       console w' =
         LogError "Error adding project:" (ValidationError errors) :: console w /\
       errors !! p = Some RequiredMissing /\
       projects w' = projects w).
Proof.
  intros Ha Hok Hplain. split.
  - intros t de i [Ht Ht'] [Hd Hd'] [Hi Hi'] Hc.
    exists (stored o w). eexists. split.
    { apply post_project_valid; [done|done|apply Hok|].
      apply castable_no_errors in Hc. rewrite Hc, (left_id_L ∅ (∪)).
      apply no_errors_empty, required_errors_empty.
      - rewrite (built_text o w "title" t) by auto.
        destruct t; [exfalso; by apply Ht'|reflexivity].
      - rewrite (built_text o w "description" de) by auto.
        destruct de; [exfalso; by apply Hd'|reflexivity].
      - rewrite (built_text o w "image" i) by auto.
        destruct i; [exfalso; by apply Hi'|reflexivity]. }
    split; [reflexivity|]. split.
    { intros (d & Hin & Hid). destruct Hok as [_ Hold _].
      rewrite Forall_forall in Hold. specialize (Hold d Hin).
      simpl in Hid. lia. }
    simpl. rewrite !lookup_insert_ne by done.
    rewrite (built_text o w "title" t), (built_text o w "description" de),
      (built_text o w "image" i) by auto.
    done.
  - intros p Hp Hm.
    assert ((cast_errors o ∪ required_errors (built o w)) !! p
            = Some RequiredMissing) as He.
    { rewrite lookup_union, cast_errors_lookup, required_errors_lookup.
      rewrite (string_paths p Hp). simpl.
      rewrite (built_missing o w p Hp Hm). simpl.
      by destruct Hm as [-> | ->]. }
    eexists _, _. split; [|split; [|split]].
    + apply post_project_invalid; [done|done|]. by eapply has_errors_lookup.
    + done.
    + exact He.
    + done.
Qed.

(** C10. A Create within the model, with the store available: the keys of
    the payload that are no paths of the schema play no part in the outcome;
    the record answered with 201 is the one appended to the collection, its
    fields are paths of the schema or the version key; [featured] is false,
    and [createdAt] and [updatedAt] are the time of creation, where the
    payload does not supply them. *)
Theorem create_keeps_schema_fields (o : gmap string json) (w : World) :
  available w ->
  store_ok w ->
  plain o ->
  (forall o',
     plain o' ->
     (forall p, is_Some (paths !! p) -> o' !! p = o !! p) ->
     serve (post_project o') w = serve (post_project o) w) /\
  (forall d w',
     serve (post_project o) w = (mkResponse 201 (JsonDoc d), w') ->
     projects w' = (projects w ++ [d])%list /\
     (forall k, is_Some (fields d !! k) -> is_Some (paths !! k) \/ k = "__v") /\
     (o !! "featured" = None -> fields d !! "featured" = Some (BBool false)) /\
     (o !! "createdAt" = None ->
      fields d !! "createdAt" = Some (BDate (clock w))) /\
     (o !! "updatedAt" = None ->
      fields d !! "updatedAt" = Some (BDate (clock w)))).
Proof.
  intros Ha Hok Hplain. split.
  - intros o' Hplain' Hagree.
    assert (casted o' = casted o) as Hc.
    { apply map_eq. intros p. rewrite !casted_lookup.
      destruct (paths !! p) as [sp|] eqn:Ep; simpl; [|done].
      by rewrite Hagree by (rewrite Ep; eauto). }
    assert (cast_errors o' = cast_errors o) as He.
    { apply map_eq. intros p. rewrite !cast_errors_lookup.
      destruct (paths !! p) as [sp|] eqn:Ep; simpl; [|done].
      by rewrite Hagree by (rewrite Ep; eauto). }
    unfold post_project, new_Project. unfold_monad.
    unfold available in Ha. rewrite Ha. simpl.
    rewrite !payload_id_plain by done. simpl. by rewrite Hc, He.
  - intros d w' Hpost.
    destruct (no_errors (cast_errors o ∪ required_errors (built o w))) eqn:E.
    + rewrite post_project_valid in Hpost; [|done|done|apply Hok|done].
      injection Hpost as <- <-. split; [done|]. simpl. split; [|split; [|split]].
      * intros k Hk. destruct (decide (k = "__v")) as [->|Hne]; [by right|].
        left. rewrite lookup_insert_ne in Hk by done. by eapply built_schema.
      * intros Hf. rewrite lookup_insert_ne by done.
        rewrite built_default by done. apply defaults_featured.
      * intros Hf. rewrite lookup_insert_ne by done.
        rewrite built_default by done. apply defaults_dates. by left.
      * intros Hf. rewrite lookup_insert_ne by done.
        rewrite built_default by done. apply defaults_dates. by right.
    + rewrite post_project_invalid in Hpost by done. by injection Hpost.
Qed.

(** ** Updating *)

Lemma update_first_ids oid d' l :
  _id d' = oid -> _id <$> update_first oid (fun _ => d') l = _id <$> l.
Proof.
  intros Hd. induction l as [|x l IH]; [done|]. simpl.
  destruct (has_id oid x) eqn:E; rewrite !fmap_cons; [|by rewrite IH].
  unfold has_id in E. apply N.eqb_eq in E. by rewrite Hd, E.
Qed.

Lemma update_first_elem oid d' l d :
  d ∈ update_first oid (fun _ => d') l -> d ∈ l \/ d = d'.
Proof.
  induction l as [|x l IH]; simpl; [by left|].
  destruct (has_id oid x).
  - intros [->|H]%elem_of_cons; [by right|left; by right].
  - intros [->|H]%elem_of_cons; [left; by left|].
    destruct (IH H); [left; by right|by right].
Qed.

Lemma update_first_found oid d' l d :
  find_id oid l = Some d -> d' ∈ update_first oid (fun _ => d') l.
Proof.
  unfold find_id. induction l as [|x l IH]; simpl; [done|].
  destruct (has_id oid x); [by left|]. intros H. right. auto.
Qed.

Lemma update_first_other oid d' l d :
  d ∈ l -> _id d <> oid -> d ∈ update_first oid (fun _ => d') l.
Proof.
  induction l as [|x l IH]; simpl; [done|].
  intros [->|H]%elem_of_cons Hne.
  - assert (has_id oid x = false) as -> by (by apply N.eqb_neq). by left.
  - destruct (has_id oid x); right; auto.
Qed.

Lemma update_first_absent oid d' l :
  find_id oid l = None -> update_first oid (fun _ => d') l = l.
Proof.
  unfold find_id. induction l as [|x l IH]; simpl; [done|].
  destruct (has_id oid x); [done|]. intros H. by rewrite IH.
Qed.

Lemma update_of_updatedAt o w : update_of o w !! "updatedAt" = Some (JDate (clock w)).
Proof. unfold update_of. apply lookup_insert_eq. Qed.

Lemma update_of_other o w p : p <> "updatedAt" -> update_of o w !! p = o !! p.
Proof. intros H. unfold update_of. by rewrite lookup_insert_ne. Qed.

(** What an update sets for a path other than [updatedAt] is what the
    payload casts to; for [updatedAt] it is the time of the update. *)
Lemma casted_update_updatedAt o w :
  casted (update_of o w) !! "updatedAt" = Some (BDate (clock w)).
Proof.
  rewrite casted_lookup, update_of_updatedAt, (date_paths "updatedAt") by auto.
  done.
Qed.

Lemma casted_update_other o w p :
  p <> "updatedAt" -> casted (update_of o w) !! p = casted o !! p.
Proof. intros H. by rewrite !casted_lookup, update_of_other. Qed.

Lemma cast_errors_update o w :
  (forall p, p <> "updatedAt" -> cast_errors o !! p = None) ->
  cast_errors (update_of o w) = ∅.
Proof.
  intros H. apply map_empty. intros p. destruct (decide (p = "updatedAt")) as [->|Hne].
  - rewrite cast_errors_lookup, update_of_updatedAt.
    by rewrite (date_paths "updatedAt") by auto.
  - rewrite <- (H p Hne). by rewrite !cast_errors_lookup, update_of_other.
Qed.

Lemma put_project_cast_error id oid o w :
  available w -> ObjectId_fromHex id = Some oid ->
  no_errors (cast_errors (update_of o w)) = false ->
  serve (put_project id o) w =
    (mkResponse 500 (JsonError "Failed to update project"),
     print (LogError "Error updating project:"
              (CastError (cast_errors (update_of o w))))
       (print (Log "Updating project with ID:" id) w)).
Proof.
  intros H Hid Hc.
  unfold put_project, Project_findByIdAndUpdate, isValid.
  unfold_monad. unfold available in H. rewrite H, Hid. simpl.
  unfold update_of in *. by rewrite Hc.
Qed.

Lemma put_project_validation_error id oid o w :
  available w -> ObjectId_fromHex id = Some oid ->
  no_errors (cast_errors (update_of o w)) = true ->
  no_errors (update_errors (casted (update_of o w))) = false ->
  serve (put_project id o) w =
    (mkResponse 500 (JsonError "Failed to update project"),
     print (LogError "Error updating project:"
              (ValidationError (update_errors (casted (update_of o w)))))
       (print (Log "Updating project with ID:" id) w)).
Proof.
  intros H Hid Hc Hv.
  unfold put_project, Project_findByIdAndUpdate, isValid.
  unfold_monad. unfold available in H. rewrite H, Hid. simpl.
  unfold update_of in *. rewrite Hc. simpl. by rewrite Hv.
Qed.

(** The payload [{ title: x }]. *)
Definition title_only (x : string) : gmap string json := {[ "title" := JString x ]}.

Lemma title_only_lookup x p :
  title_only x !! p = if decide (p = "title") then Some (JString x) else None.
Proof.
  unfold title_only. rewrite lookup_singleton. by repeat case_decide.
Qed.

Lemma title_only_casts x w :
  no_errors (cast_errors (update_of (title_only x) w)) = true.
Proof.
  apply no_errors_empty, cast_errors_update. intros p _.
  rewrite cast_errors_lookup, title_only_lookup.
  destruct (paths !! p) as [sp|] eqn:Ep; simpl; [|done].
  case_decide as Hp; [|done]. subst p.
  rewrite (string_paths "title") in Ep by auto. by injection Ep as <-.
Qed.

Lemma title_only_casted x w p :
  casted (update_of (title_only x) w) !! p =
    if decide (p = "title") then Some (BString x)
    else if decide (p = "updatedAt") then Some (BDate (clock w))
    else None.
Proof.
  destruct (decide (p = "updatedAt")) as [->|Hne].
  - by rewrite casted_update_updatedAt.
  - rewrite casted_update_other by done. rewrite casted_lookup, title_only_lookup.
    case_decide as Hp; [|by destruct (paths !! p)].
    subst p. by rewrite (string_paths "title") by auto.
Qed.

Lemma title_only_validates x w :
  x <> "" ->
  no_errors (update_errors (casted (update_of (title_only x) w))) = true.
Proof.
  intros Hx. apply no_errors_lookup. intros p.
  rewrite update_errors_lookup, title_only_casted.
  destruct (paths !! p) as [sp|] eqn:Ep; simpl; [|done].
  case_decide as Hp.
  - subst p. rewrite (string_paths "title") in Ep by auto.
    injection Ep as <-. simpl.
    destruct x; [exfalso; by apply Hx|reflexivity].
  - case_decide as Hp'; [|done]. subst p.
    rewrite (date_paths "updatedAt") in Ep by auto. by injection Ep as <-.
Qed.

Lemma castDate_shape v b :
  castDate v = Some b -> b = BNull \/ exists t, b = BDate t.
Proof.
  unfold castDate. intros H.
  destruct v as [|?|n|[|c s]|l|o|t]; simplify_eq; eauto.
  - destruct (valid_time n); simplify_eq; eauto.
  - destruct (Date_value _) as [t|]; [|done].
    destruct (valid_time t); simplify_eq; eauto.
  - destruct (Date_value _) as [t|]; [|done].
    destruct (valid_time t); simplify_eq; eauto.
  - destruct (Date_value _) as [t|]; [|done].
    destruct (valid_time t); simplify_eq; eauto.
Qed.

Lemma casted_createdAt o b :
  casted o !! "createdAt" = Some b -> b = BNull \/ exists t, b = BDate t.
Proof.
  rewrite casted_lookup, (date_paths "createdAt") by auto. simpl.
  destruct (o !! "createdAt") as [v|]; [|done].
  simpl. apply castDate_shape.
Qed.

Lemma shaped_intro d :
  (forall p, p ∈ defaulted_paths -> is_Some (fields d !! p)) ->
  (fields d !! "createdAt" = Some BNull \/
   exists t, fields d !! "createdAt" = Some (BDate t)) ->
  shaped d.
Proof.
  intros H1 H2. unfold shaped. apply andb_True. split.
  - apply Is_true_true, forallb_forall. intros p Hp.
    apply bool_decide_eq_true, H1. by apply list_elem_of_In.
  - by destruct H2 as [-> | [t ->]].
Qed.

Lemma shaped_createdAt d :
  shaped d ->
  fields d !! "createdAt" = Some BNull \/
  exists t, fields d !! "createdAt" = Some (BDate t).
Proof.
  unfold shaped. intros [_ H]%andb_True.
  destruct (fields d !! "createdAt") as [[]|]; try done; eauto.
Qed.

(** An update keeps a record in the shape of the schema. *)
Lemma shaped_updated o d :
  shaped d -> shaped (mkDoc (_id d) (casted o ∪ fields d)).
Proof.
  intros Hd. apply shaped_intro; simpl.
  - intros p Hp. rewrite lookup_union.
    destruct (shaped_has d p Hd Hp) as [b ->].
    destruct (casted o !! p); simpl; eauto.
  - rewrite lookup_union.
    destruct (casted o !! "createdAt") as [b|] eqn:E.
    + apply casted_createdAt in E as [->|[t ->]];
        destruct (fields d !! "createdAt"); simpl; eauto.
    + destruct (shaped_createdAt d Hd) as [-> | [t ->]]; simpl; eauto.
Qed.

(** C3, as the code has it. With the store available, an Update of an
    existing record with the payload [{ title: x }], [x] not empty, is
    answered 200 with the merged record, which takes the place of the old one:
    its title is [x], its [updatedAt] is the time of the update, and every
    other field is as before; [updatedAt] has grown strictly whenever the
    prior one was earlier than the time of the update. For a well-formed id
    that no record has, the answer is NotFound (404). *)
Theorem update_title_only (id : string) (oid : ObjectId) (x : string) (w : World) :
  available w ->
  store_ok w ->
  x <> "" ->
  ObjectId_fromHex id = Some oid ->
  (~ exists_id oid w ->
   (serve (put_project id (title_only x)) w).1 = NotFound) /\
  (forall d, d ∈ projects w -> _id d = oid ->
     exists d' w',
       serve (put_project id (title_only x)) w =
         (mkResponse 200 (JsonDoc d'), w') /\
       d' ∈ projects w' /\
       (forall e, e ∈ projects w -> _id e <> oid -> e ∈ projects w') /\
       _id d' = _id d /\
       fields d' !! "title" = Some (BString x) /\
       fields d' !! "updatedAt" = Some (BDate (clock w)) /\
       (forall k, k <> "title" -> k <> "updatedAt" ->
                  fields d' !! k = fields d !! k) /\
       (forall t, fields d !! "updatedAt" = Some (BDate t) -> t < clock w ->
                  exists t', fields d' !! "updatedAt" = Some (BDate t') /\ t < t')).
Proof.
  intros Ha Hok Hx Hid.
  pose proof (put_project_valid id oid (title_only x) w Ha Hid
                (title_only_casts x w) (title_only_validates x w Hx)) as Hput.
  split.
  - intros Hno. rewrite Hput. by rewrite find_id_absent.
  - intros d Hd Hoid.
    pose proof (find_id_unique oid _ d (ids_unique _ Hok) Hd Hoid) as Hfind.
    rewrite Hfind in Hput. simpl in Hput.
    assert (shaped d) as Hs.
    { destruct Hok as [_ _ Hs]. rewrite Forall_forall in Hs. by apply Hs. }
    rewrite hydrate_shaped in Hput by by apply shaped_updated.
    eexists _, _. split; [exact Hput|]. simpl.
    assert (forall p, (casted (update_of (title_only x) w) ∪ fields d) !! p =
                      if decide (p = "title") then Some (BString x)
                      else if decide (p = "updatedAt") then Some (BDate (clock w))
                      else fields d !! p) as Hl.
    { intros p. rewrite lookup_union, title_only_casted.
      repeat case_decide; destruct (fields d !! p); done. }
    split; [by eapply update_first_found|].
    split; [intros e He Hne; by apply update_first_other|].
    split; [done|]. split; [by rewrite Hl|]. split; [by rewrite Hl|].
    split.
    + intros k Hk1 Hk2. rewrite Hl. by repeat case_decide.
    + intros t _ Ht. exists (clock w). by rewrite Hl.
Qed.

(** ** Runs of requests *)


(** What serving a request does to the collection. *)
Inductive Change (w : World) : Request -> World -> Prop :=
| Unchanged r w' :
    projects w' = projects w ->
    (next_oid w <= next_oid w')%N ->
    Change w r w'
| Inserted o w' :
    no_errors (cast_errors o ∪ required_errors (built o w)) = true ->
    projects w' = (projects w ++ [stored o w])%list ->
    next_oid w' = (next_oid w + 1)%N ->
    Change w (Create o) w'
| Updated id oid o d w' :
    ObjectId_fromHex id = Some oid ->
    find_id oid (projects w) = Some d ->
    projects w' =
      update_first oid
        (fun _ => mkDoc (_id d) (casted (update_of o w) ∪ fields d))
        (projects w) ->
    next_oid w' = next_oid w ->
    Change w (Update id o) w'
| Removed id oid d w' :
    ObjectId_fromHex id = Some oid ->
    find_id oid (projects w) = Some d ->
    projects w' = remove_first oid (projects w) ->
    next_oid w' = next_oid w ->
    Change w (Delete id) w'
| InsertedAs o s oid w' :
    o !! "_id" = Some (JString s) ->
    ObjectId_fromHex s = Some oid ->
    find_id oid (projects w) = None ->
    projects w' =
      (projects w ++ [mkDoc oid (<["__v" := BInt 0]> (built o w))])%list ->
    next_oid w' = (N.max (next_oid w) oid + 1)%N ->
    Change w (Create o) w'.

(** A Create, whatever its payload: the collection is left as it was, or the
    document is appended under the identifier chosen for it, which no record
    has. *)
Lemma post_project_cases o w :
  available w ->
  readyState (serve (post_project o) w).2 = readyState w /\
  clock (serve (post_project o) w).2 = clock w /\
  ((projects (serve (post_project o) w).2 = projects w /\
    (next_oid w <= next_oid (serve (post_project o) w).2)%N) \/
   (exists oid,
      payload_id o (next_oid w) = Some oid /\
      find_id oid (projects w) = None /\
      no_errors (cast_errors o ∪ required_errors (built o w)) = true /\
      projects (serve (post_project o) w).2 =
        (projects w ++ [mkDoc oid (<["__v" := BInt 0]> (built o w))])%list /\
      next_oid (serve (post_project o) w).2 = (N.max (next_oid w) oid + 1)%N)).
Proof.
  intros Ha. unfold post_project, new_Project, save, insertOne. unfold_monad.
  unfold available in Ha. rewrite Ha. simpl.
  destruct (payload_id o (next_oid w)) as [oid|] eqn:Eid; simpl.
  - fold (built o w).
    destruct (no_errors (cast_errors o ∪ required_errors (built o w))) eqn:E;
      simpl.
    + rewrite Ha. simpl.
      destruct (existsb (has_id oid) (projects w)) eqn:Ex; simpl.
      * clear E. split; [done|]. split; [done|]. left. split; [done|]. lia.
      * split; [by rewrite Ha|]. split; [reflexivity|]. right. exists oid.
        split; [reflexivity|]. split; [|split; [reflexivity|split; reflexivity]].
        clear E. apply find_id_None. intros d Hd Hi.
        assert (existsb (has_id oid) (projects w) = true) as Ht; [|congruence].
        apply existsb_exists. exists d. split; [by apply list_elem_of_In|].
        unfold has_id. by apply N.eqb_eq.
    + clear E. split; [done|]. split; [done|]. left. split; [done|]. lia.
  - fold (built o w).
    rewrite (has_errors_lookup _ "_id" CastFailed); simpl.
    + split; [done|]. split; [done|]. left. split; [done|]. lia.
    + apply lookup_union_Some_l, lookup_insert_eq.
Qed.

Lemma serve_change r w :
  available w ->
  Forall (fun d => (_id d < next_oid w)%N) (projects w) ->
  let w' := (serve (route r) w).2 in
  readyState w' = readyState w /\ clock w' = clock w /\ Change w r w'.
Proof.
  intros Ha Hold. assert (readyState w <> 0) as Hr by (unfold available in Ha; lia).
  destruct r as [| |id|o|id o|id]; simpl.
  - rewrite get_projects_available by done. simpl.
    split; [done|]. split; [done|]. by apply Unchanged.
  - rewrite get_projects_featured_available by done. simpl.
    split; [done|]. split; [done|]. by apply Unchanged.
  - destruct (ObjectId_fromHex id) as [oid|] eqn:Hid.
    + rewrite (get_project_valid id oid) by done. simpl.
      split; [done|]. split; [done|]. by apply Unchanged.
    + rewrite get_project_invalid by by (try apply isValid_false). simpl.
      split; [done|]. split; [done|]. by apply Unchanged.
  - destruct (post_project_cases o w Ha) as (Hr' & Hc' & Hch).
    split; [done|]. split; [done|].
    destruct Hch as [[Hp Hn]|(oid & Hid & Hf & He & Hp & Hn)];
      [by apply Unchanged|].
    destruct (payload_id_cases o (next_oid w)) as [[Ho Hg]|[(s & Ho & Hg)|Hg]].
    + rewrite Hg in Hid. injection Hid as <-. rewrite N.max_id in Hn.
      by apply Inserted.
    + rewrite Hg in Hid. by eapply InsertedAs.
    + congruence.
  - destruct (ObjectId_fromHex id) as [oid|] eqn:Hid.
    + destruct (no_errors (cast_errors (update_of o w))) eqn:Ec.
      * destruct (no_errors (update_errors (casted (update_of o w)))) eqn:Ev.
        -- rewrite (put_project_valid id oid) by done.
           destruct (find_id oid (projects w)) as [d|] eqn:Ef; simpl.
           ++ split; [done|]. split; [done|]. by eapply Updated.
           ++ split; [done|]. split; [done|]. by apply Unchanged.
        -- rewrite (put_project_validation_error id oid) by done. simpl.
           split; [done|]. split; [done|]. by apply Unchanged.
      * rewrite (put_project_cast_error id oid) by done. simpl.
        split; [done|]. split; [done|]. by apply Unchanged.
    + rewrite put_project_invalid by by (try apply isValid_false). simpl.
      split; [done|]. split; [done|]. by apply Unchanged.
  - destruct (ObjectId_fromHex id) as [oid|] eqn:Hid.
    + rewrite (delete_project_valid id oid) by done.
      destruct (find_id oid (projects w)) as [d|] eqn:Ef; simpl.
      * split; [done|]. split; [done|]. by eapply Removed.
      * split; [done|]. split; [done|]. by apply Unchanged.
    + rewrite delete_project_invalid by by (try apply isValid_false). simpl.
      split; [done|]. split; [done|]. by apply Unchanged.
Qed.

Lemma defaulted_paths_default now p :
  p ∈ defaulted_paths -> is_Some (defaults now !! p).
Proof.
  rewrite defaulted_paths_eq. intros ((q & b) & -> & H)%list_elem_of_fmap.
  apply elem_of_map_to_list in H. simpl. apply (defaults_keys 0). by rewrite H.
Qed.

Lemma shaped_built oid o w :
  shaped (mkDoc oid (<["__v" := BInt 0]> (built o w))).
Proof.
  apply shaped_intro; simpl.
  - intros p Hp. destruct (decide (p = "__v")) as [->|Hne].
    + rewrite lookup_insert_eq. eauto.
    + rewrite lookup_insert_ne by done. unfold built. rewrite lookup_union.
      destruct (defaulted_paths_default (clock w) p Hp) as [b ->].
      destruct (casted o !! p); simpl; eauto.
  - rewrite lookup_insert_ne by done. unfold built. rewrite lookup_union.
    destruct (casted o !! "createdAt") as [b|] eqn:E.
    + apply casted_createdAt in E as [->|[t ->]];
        destruct (defaults (clock w) !! "createdAt"); simpl; eauto.
    + rewrite (defaults_dates _ "createdAt") by auto. simpl. eauto.
Qed.

Lemma shaped_stored o w : shaped (stored o w).
Proof. apply shaped_built. Qed.

Lemma Change_store_ok w r w' : store_ok w -> Change w r w' -> store_ok w'.
Proof.
  intros [Hu Ho Hs] Hc. destruct Hc as [r w' Hp Hn|o w' He Hp Hn|
    id oid o d w' Hid Hf Hp Hn|id oid d w' Hid Hf Hp Hn|
    o s oid w' Hown Hid Hf Hp Hn].
  5:{ constructor; rewrite Hp.
      - rewrite fmap_app. apply NoDup_app. split; [done|]. split.
        + intros i (d & -> & Hd)%list_elem_of_fmap. simpl.
          intros Heq%list_elem_of_singleton.
          by apply (proj1 (find_id_None oid (projects w)) Hf d).
        + apply NoDup_singleton.
      - apply Forall_app. split.
        + eapply Forall_impl; [exact Ho|]. simpl. intros. lia.
        + apply Forall_singleton. simpl. lia.
      - apply Forall_app. split; [done|].
        apply Forall_singleton, shaped_built. }
  - constructor; rewrite Hp; [done| |done].
    eapply Forall_impl; [exact Ho|]. simpl. intros. lia.
  - clear He. constructor; rewrite Hp.
    + rewrite fmap_app. apply NoDup_app. split; [done|]. split.
      * intros i (d & -> & Hd)%list_elem_of_fmap. simpl.
        intros Heq%list_elem_of_singleton.
        rewrite Forall_forall in Ho. specialize (Ho d Hd). lia.
      * apply NoDup_singleton.
    + apply Forall_app. split.
      * eapply Forall_impl; [exact Ho|]. simpl. intros. lia.
      * apply Forall_singleton. simpl. lia.
    + apply Forall_app. split; [done|]. apply Forall_singleton, shaped_stored.
  - apply find_id_Some in Hf as [Hd Hoid].
    constructor; rewrite Hp.
    + by rewrite update_first_ids.
    + rewrite Hn. apply Forall_forall. intros e He.
      rewrite Forall_forall in Ho.
      apply update_first_elem in He as [He| ->]; [by apply Ho|].
      simpl. by apply Ho.
    + apply Forall_forall. intros e He. rewrite Forall_forall in Hs.
      apply update_first_elem in He as [He| ->]; [by apply Hs|].
      apply shaped_updated. by apply Hs.
  - constructor; rewrite Hp.
    + eapply sublist_NoDup; [exact Hu|apply remove_first_ids].
    + rewrite Hn. apply Forall_forall. intros e He.
      rewrite Forall_forall in Ho. apply Ho. by eapply remove_first_subset.
    + apply Forall_forall. intros e He.
      rewrite Forall_forall in Hs. apply Hs. by eapply remove_first_subset.
Qed.






(** ** Deleting *)


(** ** Timestamps *)










(** ** The guard on the connection *)

(** C9 at the handler that has no guard: with the connection in state 0,
    List Featured still sends its query. If the connection opens in time the
    answer is 200 with the featured records; if not, the answer is 500 for the
    store's timeout, and no "Database not connected" error is raised. *)
Theorem featured_has_no_guard (w : World) :
  unavailable w ->
  (reconnects w = true ->
   (serve get_projects_featured w).1 =
     mkResponse 200
       (JsonDocs (hydrate (clock w) <$>
                    sort_createdAt_desc (List.filter is_featured (projects w))))) /\
  (reconnects w = false ->
   serve get_projects_featured w =
     (mkResponse 500 (JsonError "Failed to fetch featured projects"),
      print (LogError "Error fetching featured projects:"
               (MongooseError "store command timed out")) w)).
Proof.
  intros H. unfold unavailable in H.
  unfold get_projects_featured, Project_find_sorted. unfold_monad.
  rewrite H. simpl. split; intros ->; reflexivity.
Qed.

(** ** Further properties of the handlers *)

(** X1. With the connection in state 0, the five guarded handlers answer 500
    with their own message, log the "Database not connected" error and do
    nothing else: no query is sent, no identifier is generated, the collection
    is not touched. *)
Theorem guarded_handlers_unavailable (id : string) (o : gmap string json) (w : World) :
  unavailable w ->
  serve get_projects w =
    (mkResponse 500 (JsonError "Failed to fetch projects"),
     print (LogError "Error fetching projects:"
              (JsError "Database not connected")) w) /\
  serve (get_project id) w =
    (mkResponse 500 (JsonError "Failed to fetch project"),
     print (LogError "Error fetching project:"
              (JsError "Database not connected")) w) /\
  serve (post_project o) w =
    (mkResponse 500 (JsonError "Failed to add project"),
     print (LogError "Error adding project:"
              (JsError "Database not connected")) w) /\
  serve (put_project id o) w =
    (mkResponse 500 (JsonError "Failed to update project"),
     print (LogError "Error updating project:"
              (JsError "Database not connected")) w) /\
  serve (delete_project id) w =
    (mkResponse 500 (JsonError "Failed to delete project"),
     print (LogError "Error deleting project:"
              (JsError "Database not connected")) w).
Proof.
  intros H.
  rewrite get_projects_unavailable, get_project_unavailable,
    post_project_unavailable, put_project_unavailable,
    delete_project_unavailable by done.
  done.
Qed.

(** The statuses a route can answer with, as the handlers are written. *)
Definition statuses (r : Request) : list Z :=
  match r with
  | List | ListFeatured => [200; 500]
  | Create _ => [201; 500]
  | Get _ | Update _ _ | Delete _ => [200; 400; 404; 500]
  end.

(** The kind of body that goes with a status: [{ error }] with 500 and only
    with it, [{ message }] with 400 and 404 and with the 200 of a Delete, one
    record with the 200 of a Get or an Update and the 201 of a Create, a
    listing with the 200 of the two listings. *)
Definition body_fits (r : Request) (resp : Response) : Prop :=
  match body resp with
  | JsonError _ => status resp = 500
  | JsonMessage _ =>
      status resp = 400 \/ status resp = 404 \/
      (status resp = 200 /\ exists id, r = Delete id)
  | JsonDoc _ =>
      (status resp = 200 /\ exists id, r = Get id \/ exists o, r = Update id o) \/
      (status resp = 201 /\ exists o, r = Create o)
  | JsonDocs _ => status resp = 200 /\ (r = List \/ r = ListFeatured)
  end.

Ltac split_branches :=
  repeat match goal with
         | |- context [if ?b then _ else _] => destruct b eqn:?; simpl
         | |- context [match ?x with Some _ => _ | None => _ end] =>
             destruct x eqn:?; simpl
         end.

Ltac close_answer :=
  clear;
  split; [apply (bool_decide_unpack _); vm_compute; exact I|];
  cbn [body status fst snd]; eauto 10.

(** X2. In every world and for every payload, a route answers with one of its
    statuses and with the kind of body that goes with the status. In
    particular a Create is never answered 400: a payload that fails validation
    gets 500. *)
Theorem answers_by_route (r : Request) (w : World) :
  status (serve (route r) w).1 ∈ statuses r /\
  body_fits r (serve (route r) w).1.
Proof.
  destruct r as [| |id|o|id o|id]; unfold route, statuses, body_fits.
  - unfold get_projects, Project_find_sorted. unfold_monad. simpl.
    split_branches; close_answer.
  - unfold get_projects_featured, Project_find_sorted. unfold_monad. simpl.
    split_branches; close_answer.
  - unfold get_project, Project_findById. unfold_monad. simpl.
    split_branches; close_answer.
  - unfold post_project, new_Project, save, insertOne. unfold_monad. simpl.
    split_branches; close_answer.
  - unfold put_project, Project_findByIdAndUpdate. unfold_monad. simpl.
    split_branches; close_answer.
  - unfold delete_project, Project_findByIdAndDelete. unfold_monad. simpl.
    split_branches; close_answer.
Qed.

(** The part of the world that outlasts a request apart from the console
    and the state of the connection. *)
Definition same_store (w w' : World) : Prop :=
  projects w' = projects w /\ clock w' = clock w /\ next_oid w' = next_oid w.

(** X3. The three reading handlers change nothing but the console and, where a
    held-back query got through, the state of the connection: in every world
    the collection, the clock and the identifier generator are as before. *)
Theorem reads_leave_the_store (id : string) (w : World) :
  same_store w (serve get_projects w).2 /\
  same_store w (serve get_projects_featured w).2 /\
  same_store w (serve (get_project id) w).2.
Proof.
  unfold same_store, get_projects, get_projects_featured, get_project,
    Project_find_sorted, Project_findById.
  unfold_monad. simpl. split; [|split]; split_branches; done.
Qed.

(** X4. The update handler overrides whatever [updatedAt] the body carries: the
    body's own value plays no part. *)
Theorem update_ignores_body_updatedAt (id : string) (o : gmap string json) (w : World) :
  serve (put_project id (delete "updatedAt" o)) w = serve (put_project id o) w.
Proof.
  unfold put_project. unfold_monad. simpl.
  destruct (readyState w =? 0); [done|]. simpl.
  destruct (isValid id); [|done]. simpl.
  by rewrite insert_delete_eq.
Qed.

(** ** How the operations compose *)

Lemma post_project_created o w w' d :
  available w -> store_ok w -> plain o ->
  serve (post_project o) w = (mkResponse 201 (JsonDoc d), w') ->
  d = stored o w /\
  w' = set_projects (projects w ++ [stored o w])
         (set_next_oid (next_oid w + 1)%N w) /\
  available w' /\ store_ok w'.
Proof.
  intros Ha Hok Hplain Hpost.
  destruct (no_errors (cast_errors o ∪ required_errors (built o w))) eqn:E.
  - rewrite post_project_valid in Hpost; [|done|done|apply Hok|done].
    injection Hpost as <- <-. split; [done|]. split; [done|]. split; [done|].
    eapply (Change_store_ok w (Create o)); [done|]. by apply Inserted.
  - rewrite post_project_invalid in Hpost by assumption. by injection Hpost.
Qed.

(** X5. Round trip: with the store available, the record a Create answers with
    is the record a Get on its identifier answers with. *)
Theorem create_then_get (o : gmap string json) (w w' : World) (d : Doc) (id : string) :
  available w ->
  store_ok w ->
  plain o ->
  serve (post_project o) w = (mkResponse 201 (JsonDoc d), w') ->
  ObjectId_fromHex id = Some (_id d) ->
  (serve (get_project id) w').1 = mkResponse 200 (JsonDoc d).
Proof.
  intros Ha Hok Hplain Hpost Hid.
  destruct (post_project_created o w w' d Ha Hok Hplain Hpost)
    as (Hd & Hw & Ha' & Hok').
  rewrite (get_project_valid id (_id d)) by done.
  assert (d ∈ projects w') as Hin.
  { rewrite Hw, Hd. simpl. apply elem_of_app. right. apply list_elem_of_here. }
  rewrite (find_id_unique (_id d) _ d); [|apply Hok'|done|done]. simpl.
  rewrite hydrate_shaped; [done|].
  destruct Hok' as [_ _ Hs]. rewrite Forall_forall in Hs. by apply Hs.
Qed.

(** X6. With the store available, a List after a Create that was answered 201
    has the new record and every record that was there before, and one record
    more than the collection had. *)
Theorem create_then_list (o : gmap string json) (w w' : World) (d : Doc) :
  available w ->
  store_ok w ->
  plain o ->
  serve (post_project o) w = (mkResponse 201 (JsonDoc d), w') ->
  exists listed,
    (serve get_projects w').1 = mkResponse 200 (JsonDocs listed) /\
    d ∈ listed /\
    (forall e, e ∈ projects w -> e ∈ listed) /\
    length listed = S (length (projects w)).
Proof.
  intros Ha Hok Hplain Hpost.
  destruct (post_project_created o w w' d Ha Hok Hplain Hpost)
    as (Hd & Hw & Ha' & Hok').
  exists (sort_createdAt_desc (projects w')).
  rewrite get_projects_available by done. simpl.
  assert (hydrate (clock w') <$> sort_createdAt_desc (projects w')
          = sort_createdAt_desc (projects w')) as ->.
  { rewrite <- (list_fmap_id (sort_createdAt_desc (projects w'))) at 2.
    apply list_fmap_ext. intros i e He. simpl. apply hydrate_shaped.
    destruct Hok' as [_ _ Hs]. rewrite Forall_forall in Hs. apply Hs.
    rewrite <- sort_createdAt_desc_perm. by eapply list_elem_of_lookup_2. }
  split; [done|]. split; [|split].
  - rewrite sort_createdAt_desc_perm, Hw, Hd. simpl.
    apply elem_of_app. right. apply list_elem_of_here.
  - intros e He. rewrite sort_createdAt_desc_perm, Hw. simpl.
    apply elem_of_app. by left.
  - rewrite sort_createdAt_desc_perm, Hw. simpl.
    rewrite length_app. simpl. lia.
Qed.

(** X7. Create has no idempotency: two Creates answered 201, one after the
    other, give two records with different identifiers, both in the
    collection, also for the same payload. *)
Theorem creates_are_distinct (o1 o2 : gmap string json) (w w1 w2 : World) (d1 d2 : Doc) :
  available w ->
  store_ok w ->
  plain o1 -> plain o2 ->
  serve (post_project o1) w = (mkResponse 201 (JsonDoc d1), w1) ->
  serve (post_project o2) w1 = (mkResponse 201 (JsonDoc d2), w2) ->
  _id d1 <> _id d2 /\ d1 ∈ projects w2 /\ d2 ∈ projects w2.
Proof.
  intros Ha Hok Hp1 Hp2 H1 H2.
  destruct (post_project_created o1 w w1 d1 Ha Hok Hp1 H1)
    as (Hd1 & Hw1 & Ha1 & Hok1).
  destruct (post_project_created o2 w1 w2 d2 Ha1 Hok1 Hp2 H2)
    as (Hd2 & Hw2 & _ & _).
  clear H1 H2. subst d1 w1. subst d2 w2. simpl. split; [lia|]. split.
  - apply elem_of_app. left. apply elem_of_app. right.
    apply list_elem_of_here.
  - apply elem_of_app. right. apply list_elem_of_here.
Qed.

(** X8. With the store available, an Update that would set a required field to
    the empty text or to null is answered 500 and changes nothing, whether or
    not a record has the id. *)
Theorem update_refused (id : string) (oid : ObjectId) (o : gmap string json)
    (p : string) (w : World) :
  available w ->
  ObjectId_fromHex id = Some oid ->
  plain o ->
  p = "title" \/ p = "description" \/ p = "image" ->
  o !! p = Some (JString "") \/ o !! p = Some JNull ->
  (serve (put_project id o) w).1 =
    mkResponse 500 (JsonError "Failed to update project") /\
  projects (serve (put_project id o) w).2 = projects w.
Proof.
  intros Ha Hid _ Hp Ho.
  destruct (no_errors (cast_errors (update_of o w))) eqn:Ec.
  - assert (no_errors (update_errors (casted (update_of o w))) = false) as Ev.
    { apply (has_errors_lookup _ p RequiredMissing).
      assert (p <> "updatedAt") as Hne.
      { destruct Hp as [->|[->| ->]]; discriminate. }
      rewrite update_errors_lookup, casted_update_other, casted_lookup
        by exact Hne.
      rewrite (string_paths p Hp). simpl.
      destruct Ho as [-> | ->]; reflexivity. }
    rewrite (put_project_validation_error id oid o w) by assumption.
    split; reflexivity.
  - rewrite (put_project_cast_error id oid) by assumption.
    split; reflexivity.
Qed.

Lemma remove_first_other oid l d :
  d ∈ l -> _id d <> oid -> d ∈ remove_first oid l.
Proof.
  induction l as [|x l IH]; simpl; [done|].
  intros [->|H]%elem_of_cons Hne.
  - assert (has_id oid x = false) as -> by (by apply N.eqb_neq). by left.
  - destruct (has_id oid x); [done|]. right. auto.
Qed.

(** X9. With the store available, a Delete of an id that no record has is
    answered NotFound and changes nothing, and a second Delete of the same id
    is answered NotFound whatever the first one did. *)
Theorem delete_absent_or_twice (id : string) (oid : ObjectId) (w : World) :
  available w ->
  store_ok w ->
  ObjectId_fromHex id = Some oid ->
  (~ exists_id oid w ->
   (serve (delete_project id) w).1 = NotFound /\
   projects (serve (delete_project id) w).2 = projects w) /\
  (serve (delete_project id) (serve (delete_project id) w).2).1 = NotFound.
Proof.
  intros Ha Hok Hid. split.
  - intros Hno. rewrite (delete_project_valid id oid) by done.
    by rewrite find_id_absent.
  - rewrite (delete_project_valid id oid w) by done.
    destruct (find_id oid (projects w)) as [d|] eqn:Hf; simpl.
    + rewrite (delete_project_valid id oid) by done. simpl.
      assert (find_id oid (remove_first oid (projects w)) = None) as ->; [|done].
      apply find_id_None. intros e He.
      by apply (remove_first_gone oid (projects w) e (ids_unique _ Hok)).
    + rewrite (delete_project_valid id oid) by done. simpl. by rewrite Hf.
Qed.

(** X10. With the store available, an Update and a Delete touch the one record
    they address: the other records stay as they are, and an Update keeps the
    identifiers of the collection, in their order. *)
Theorem writes_touch_one_record (id : string) (oid : ObjectId)
    (o : gmap string json) (w : World) (e : Doc) :
  available w ->
  store_ok w ->
  plain o ->
  ObjectId_fromHex id = Some oid ->
  _id e <> oid ->
  (e ∈ projects (serve (put_project id o) w).2 <-> e ∈ projects w) /\
  (e ∈ projects (serve (delete_project id) w).2 <-> e ∈ projects w) /\
  _id <$> projects (serve (put_project id o) w).2 = _id <$> projects w.
Proof.
  intros Ha Hok _ Hid Hne.
  destruct (serve_change (Update id o) w Ha (ids_older _ Hok)) as (_ & _ & Hu).
  destruct (serve_change (Delete id) w Ha (ids_older _ Hok)) as (_ & _ & Hd).
  simpl in Hu, Hd. split; [|split].
  - inversion Hu as [r w' Hp Hn|?|id' oid' o' d w' Hi Hf Hp Hn|?|?]; subst;
      rewrite Hp;
      [done|].
    rewrite Hid in Hi. injection Hi as <-.
    apply find_id_Some in Hf as [Hd0 Hoid]. split.
    + intros [H| ->]%update_first_elem; [done|]. by simpl in Hne.
    + intros H. by apply update_first_other.
  - inversion Hd as [r w' Hp Hn|?|?|id' oid' d w' Hi Hf Hp Hn|?]; subst;
      rewrite Hp;
      [done|].
    rewrite Hid in Hi. injection Hi as <-. split.
    + apply remove_first_subset.
    + intros H. by apply remove_first_other.
  - inversion Hu as [r w' Hp Hn|?|id' oid' o' d w' Hi Hf Hp Hn|?|?]; subst;
      rewrite Hp;
      [done|].
    apply update_first_ids. simpl. by apply find_id_Some in Hf as [_ ?].
Qed.

(** The payload [{ featured: b }]. *)
Definition featured_only (b : bool) : gmap string json :=
  {[ "featured" := JBool b ]}.

Lemma featured_path :
  paths !! "featured" = Some (mkPath SBoolean false (DefaultValue (BBool false))).
Proof. vm_compute. reflexivity. Qed.

Lemma featured_only_lookup b p :
  featured_only b !! p = if decide (p = "featured") then Some (JBool b) else None.
Proof.
  unfold featured_only. rewrite lookup_singleton. by repeat case_decide.
Qed.

Lemma featured_only_casts b w :
  no_errors (cast_errors (update_of (featured_only b) w)) = true.
Proof.
  apply no_errors_empty, cast_errors_update. intros p _.
  rewrite cast_errors_lookup, featured_only_lookup.
  destruct (paths !! p) as [sp|] eqn:Ep; simpl; [|done].
  case_decide as Hp; [|done]. subst p.
  rewrite featured_path in Ep. by injection Ep as <-.
Qed.

Lemma featured_only_casted b w p :
  casted (update_of (featured_only b) w) !! p =
    if decide (p = "featured") then Some (BBool b)
    else if decide (p = "updatedAt") then Some (BDate (clock w))
    else None.
Proof.
  destruct (decide (p = "updatedAt")) as [->|Hne].
  - by rewrite casted_update_updatedAt.
  - rewrite casted_update_other by done.
    rewrite casted_lookup, featured_only_lookup.
    case_decide as Hp; [|by destruct (paths !! p)].
    subst p. by rewrite featured_path.
Qed.

Lemma featured_only_validates b w :
  no_errors (update_errors (casted (update_of (featured_only b) w))) = true.
Proof.
  apply no_errors_lookup. intros p.
  rewrite update_errors_lookup, featured_only_casted.
  destruct (paths !! p) as [sp|] eqn:Ep; simpl; [|done].
  case_decide as Hp.
  - subst p. rewrite featured_path in Ep. by injection Ep as <-.
  - case_decide as Hp'; [|done]. subst p.
    rewrite (date_paths "updatedAt") in Ep by auto. by injection Ep as <-.
Qed.

(** X11. With the store available, an Update of an existing record with
    [{ featured: true }] is answered 200 with the record marked featured, its
    other fields but [updatedAt] as before, and List Featured right after it
    has that record. *)
Theorem update_featured_then_listed (id : string) (oid : ObjectId) (d : Doc) (w : World) :
  available w ->
  store_ok w ->
  ObjectId_fromHex id = Some oid ->
  d ∈ projects w ->
  _id d = oid ->
  exists d' w',
    serve (put_project id (featured_only true)) w =
      (mkResponse 200 (JsonDoc d'), w') /\
    _id d' = _id d /\
    fields d' !! "featured" = Some (BBool true) /\
    (forall k, k <> "featured" -> k <> "updatedAt" ->
               fields d' !! k = fields d !! k) /\
    exists featured,
      (serve get_projects_featured w').1 = mkResponse 200 (JsonDocs featured) /\
      d' ∈ featured.
Proof.
  intros Ha Hok Hid Hd Hoid.
  pose proof (put_project_valid id oid (featured_only true) w Ha Hid
                (featured_only_casts true w) (featured_only_validates true w))
    as Hput.
  pose proof (find_id_unique oid _ d (ids_unique _ Hok) Hd Hoid) as Hfind.
  rewrite Hfind in Hput. simpl in Hput.
  assert (shaped d) as Hs.
  { destruct Hok as [_ _ Hs]. rewrite Forall_forall in Hs. by apply Hs. }
  remember (mkDoc (_id d) (casted (update_of (featured_only true) w) ∪ fields d))
    as d' eqn:Ed'.
  assert (shaped d') as Hs' by (rewrite Ed'; by apply shaped_updated).
  assert (_id d' = _id d) as Hid' by (by rewrite Ed').
  assert (forall p, fields d' !! p =
                    if decide (p = "featured") then Some (BBool true)
                    else if decide (p = "updatedAt") then Some (BDate (clock w))
                    else fields d !! p) as Hl.
  { intros p. rewrite Ed'. simpl. rewrite lookup_union, featured_only_casted.
    repeat case_decide; destruct (fields d !! p); reflexivity. }
  clear Ed'. rewrite hydrate_shaped in Hput by exact Hs'.
  eexists _, _. split; [exact Hput|]. clear Hput.
  split; [exact Hid'|]. split; [by rewrite Hl|]. split.
  { intros k Hk1 Hk2. rewrite Hl. rewrite !decide_False by assumption.
    reflexivity. }
  eexists. rewrite get_projects_featured_available by exact Ha. simpl.
  split; [reflexivity|].
  apply list_elem_of_fmap. exists d'.
  split; [by rewrite hydrate_shaped by exact Hs'|].
  rewrite sort_createdAt_desc_perm. apply list_elem_of_In, filter_In. split.
  - apply list_elem_of_In.
    exact (update_first_found oid d' (projects w) d Hfind).
  - unfold is_featured. by rewrite Hl.
Qed.

(** X12. No handler lets an error escape: in every world and for every payload
    its own [catch] has answered, so the error-handling middleware with its
    "Something broke!" is never reached from these routes. *)
Theorem handlers_catch_everything (r : Request) (w : World) :
  exists resp w', route r w = (inr resp, w').
Proof.
  destruct r as [| |id|o|id o|id]; unfold route.
  - unfold get_projects, Project_find_sorted. unfold_monad. simpl.
    split_branches; eauto.
  - unfold get_projects_featured, Project_find_sorted. unfold_monad. simpl.
    split_branches; eauto.
  - unfold get_project, Project_findById. unfold_monad. simpl.
    split_branches; eauto.
  - unfold post_project, new_Project, save, insertOne. unfold_monad. simpl.
    split_branches; eauto.
  - unfold put_project, Project_findByIdAndUpdate. unfold_monad. simpl.
    split_branches; eauto.
  - unfold delete_project, Project_findByIdAndDelete. unfold_monad. simpl.
    split_branches; eauto.
Qed.

(** ** Start-up and the health check *)

(** [config.js], the variant that reads the store's location from the
    environment. [process.env] is the map of the variables that are set. *)
Inductive Port : Type :=
| PortText (s : string)      (* [process.env.PORT], as text *)
| PortNumber (n : Z).

Record Config : Type := mkConfig {
  port : Port;
  mongoUri : option string;
  nodeEnv : string;
}.

(** An environment variable as a condition: set and not empty. *)
Definition truthy (v : option string) : bool :=
  match v with
  | Some (String _ _) => true
  | _ => false
  end.

Definition config_of (env : gmap string string) : Config :=
  mkConfig
    (match env !! "PORT" with
     | Some (String c s) => PortText (String c s)
     | _ => PortNumber 5000
     end)
    (env !! "MONGODB_URI")
    (match env !! "NODE_ENV" with
     | Some (String c s) => String c s
     | _ => "development"
     end).

(** Loading the module; [None] where it ends the process with
    [process.exit(1)]. *)
Definition load_config (env : gmap string string) : option Config :=
  let config := config_of env in
  if negb (truthy (mongoUri config)) then None else Some config.

(** [connectDB] of [server.js], run to its end: [connects] tells whether
    [mongoose.connect] succeeds. *)
Inductive Started : Type :=
| Running (w : World)
| Exited (code : Z).

Definition connectDB (config : Config) (env : gmap string string)
    (connects : bool) (w : World) : Started :=
  let catch (err : Error) (w : World) :=
    let w' := print (LogError "Failed to connect to MongoDB:" err) w in
    if negb (bool_decide (env !! "NODE_ENV" = Some "production"))
    then Exited 1
    else Running w' in
  if negb (truthy (mongoUri config))
  then catch (JsError "MONGODB_URI is not defined") w
  else if connects
       then Running (print (Log "Connected to MongoDB" "") (set_readyState 1 w))
       else catch (MongooseError "no server selected") (set_readyState 0 w).

(** [GET /health]. The text of the timestamp is the engine's
    [toISOString]. *)
Variable Date_toISOString : Z -> string.

Record Health : Type := mkHealth {
  health_status : string;
  environment : string;
  timestamp : string;
  dbConnected : bool;
}.

Definition get_health (config : Config) (w : World) : Z * Health :=
  (200,
   mkHealth "ok" (nodeEnv config) (Date_toISOString (clock w))
            (readyState w =? 1)).

Lemma load_config_Some env config :
  load_config env = Some config ->
  config = config_of env /\
  exists c s, env !! "MONGODB_URI" = Some (String c s).
Proof.
  unfold load_config. simpl.
  destruct (env !! "MONGODB_URI") as [[|c s]|] eqn:E; simpl; try done.
  intros [= <-]. eauto.
Qed.

(** X13. The configuration loads exactly when [MONGODB_URI] is set and not
    empty; the port is then 5000 and the environment "development" where
    [PORT] and [NODE_ENV] are not set or empty. *)
Theorem config_loads (env : gmap string string) :
  (load_config env = None <->
   env !! "MONGODB_URI" = None \/ env !! "MONGODB_URI" = Some "") /\
  (forall config, load_config env = Some config ->
     (exists c s, mongoUri config = Some (String c s)) /\
     (env !! "PORT" = None \/ env !! "PORT" = Some "" ->
      port config = PortNumber 5000) /\
     (forall c s, env !! "PORT" = Some (String c s) ->
      port config = PortText (String c s)) /\
     (env !! "NODE_ENV" = None \/ env !! "NODE_ENV" = Some "" ->
      nodeEnv config = "development")).
Proof.
  split.
  - unfold load_config, config_of. simpl.
    destruct (env !! "MONGODB_URI") as [[|c s]|]; simpl; split;
      try done; auto; intros [H|H]; done.
  - intros config H. apply load_config_Some in H as (-> & c & s & Hu).
    unfold config_of. simpl. split; [eauto|]. split; [|split].
    + by intros [-> | ->].
    + by intros c' s' ->.
    + by intros [-> | ->].
Qed.

(** X14. Start-up with a configuration that loaded: the "MONGODB_URI is not
    defined" error cannot arise. A connection that opens leaves the store
    available and the collection as it is; one that fails ends the process,
    except in production, where the server goes on with the connection in
    state 0 and the guarded handlers answer 500. *)
Theorem start_up (env : gmap string string) (config : Config) (w : World) :
  load_config env = Some config ->
  (exists w', connectDB config env true w = Running w' /\
              available w' /\ projects w' = projects w) /\
  (env !! "NODE_ENV" <> Some "production" ->
   connectDB config env false w = Exited 1) /\
  (env !! "NODE_ENV" = Some "production" ->
   exists w', connectDB config env false w = Running w' /\
              unavailable w' /\ projects w' = projects w /\
              (serve get_projects w').1 =
                mkResponse 500 (JsonError "Failed to fetch projects")).
Proof.
  intros H. apply load_config_Some in H as (-> & c & s & Hu).
  unfold connectDB, config_of. simpl. rewrite Hu. simpl. split; [|split].
  - eexists. split; [reflexivity|]. done.
  - intros Hn. by rewrite bool_decide_eq_false_2.
  - intros Hn. rewrite bool_decide_eq_true_2 by done. simpl.
    eexists. split; [reflexivity|]. split; [done|]. split; [done|].
    by rewrite get_projects_unavailable.
Qed.

(** X15. The health check answers 200 with status "ok" in every state of the
    connection and reports the store connected exactly in state 1: it reports
    it not connected in state 0, where the handlers' guard refuses, and also in
    the states 2 and 3, which the guard lets through. *)
Theorem health_reports_connection (config : Config) (w : World) :
  (get_health config w).1 = 200 /\
  health_status (get_health config w).2 = "ok" /\
  (dbConnected (get_health config w).2 = true <-> available w) /\
  (unavailable w ->
   dbConnected (get_health config w).2 = false /\
   not_ready (readyState w) = true) /\
  (readyState w = 2 \/ readyState w = 3 ->
   dbConnected (get_health config w).2 = false /\
   not_ready (readyState w) = false).
Proof.
  unfold get_health, available, unavailable, not_ready. simpl.
  split; [done|]. split; [done|]. split; [apply Z.eqb_eq|]. split.
  - by intros ->.
  - by intros [-> | ->].
Qed.

(** ** The earlier server

    [src/unnamed/part_000] holds an earlier version of the server: a schema
    without required paths, without [updatedAt] and with a text path [id], and
    handlers without the guard on the connection and without the check of the
    path id. It is embedded over the same world. *)

Definition legacySchema : list (string * SchemaPath) :=
  [ ("id",              mkPath SString false NoDefault);
    ("title",           mkPath SString false NoDefault);
    ("description",     mkPath SString false NoDefault);
    ("longDescription", mkPath SString false NoDefault);
    ("image",           mkPath SString false NoDefault);
    ("tags",            mkPath SArrayOfString false NoDefault);
    ("demoLink",        mkPath SString false NoDefault);
    ("codeLink",        mkPath SString false NoDefault);
    ("featured",        mkPath SBoolean false NoDefault);
    ("challenges",      mkPath SString false NoDefault);
    ("solutions",       mkPath SString false NoDefault);
    ("createdAt",       mkPath SDate false DefaultNow) ].

Definition legacy_paths : gmap string SchemaPath := list_to_map legacySchema.

Definition legacy_defaults (now : Z) : gmap string bson :=
  omap (default_value now) legacy_paths.

Definition legacy_casted (o : gmap string json) : gmap string bson :=
  map_imap (fun p sp => o !! p ≫= cast (type_ sp)) legacy_paths.

Definition legacy_cast_errors (o : gmap string json) : gmap string PathError :=
  map_imap (fun p sp =>
              match o !! p with
              | Some v =>
                  match cast (type_ sp) v with
                  | Some _ => None
                  | None => Some CastFailed
                  end
              | None => None
              end) legacy_paths.

Definition legacy_hydrate (now : Z) (d : Doc) : Doc :=
  mkDoc (_id d) (fields d ∪ legacy_defaults now).

Definition legacy_find_sorted (filter : Doc -> bool) : M (list Doc) :=
  command (fun w =>
    (inr (legacy_hydrate (clock w) <$>
            sort_createdAt_desc (List.filter filter (projects w))), w)).

(** [new Project(req.body)]: as in the later server, an [_id] of the payload
    takes the place of the generated one, and one that is no identifier is a
    cast failure. *)
Definition legacy_new_Project (o : gmap string json) : M Document :=
  fun w =>
    let id := payload_id o (next_oid w) in
    let oid := default (next_oid w) id in
    (inr (mkDocument
            (mkDoc oid (legacy_casted o ∪ legacy_defaults (clock w)))
            (id_errors id (legacy_cast_errors o))),
     set_next_oid (N.max (next_oid w) oid + 1)%N w).

(** No path is required: only cast failures make [save] fail. *)
Definition legacy_save (d : Document) : M Doc :=
  if no_errors (invalid d)
  then insertOne (mkDoc (_id (doc d)) (<["__v" := BInt 0]> (fields (doc d))))
  else throw (ValidationError (invalid d)).

(** [Project.findByIdAndUpdate(id, req.body, { new: true })]: no
    validators run. The payload is read as the fields to set, which is what
    Mongoose makes of a [plain] one; update operators, dotted paths and the
    identifier among its keys are not covered, and the statements about this
    function assume [plain]. *)
Definition legacy_findByIdAndUpdate (id : string) (update : gmap string json)
  : M (option Doc) :=
  match ObjectId_fromHex id with
  | None => throw (CastError {[ "_id" := CastFailed ]})
  | Some oid =>
      if negb (no_errors (legacy_cast_errors update))
      then throw (CastError (legacy_cast_errors update))
      else
        command (fun w =>
          match find_id oid (projects w) with
          | None => (inr None, w)
          | Some d =>
              let d' := mkDoc (_id d) (legacy_casted update ∪ fields d) in
              (inr (Some (legacy_hydrate (clock w) d')),
               set_projects (update_first oid (fun _ => d') (projects w)) w)
          end)
  end.

Definition legacy_findByIdAndDelete (id : string) : M (option Doc) :=
  match ObjectId_fromHex id with
  | None => throw (CastError {[ "_id" := CastFailed ]})
  | Some oid =>
      command (fun w =>
        match find_id oid (projects w) with
        | None => (inr None, w)
        | Some d =>
            (inr (Some (legacy_hydrate (clock w) d)),
             set_projects (remove_first oid (projects w)) w)
        end)
  end.

(** [GET /api/projects] *)
Definition legacy_get_projects : M Response :=
  try_catch
    (projects <- legacy_find_sorted (fun _ => true) ;;
     ret (mkResponse 200 (JsonDocs projects)))
    (fun error =>
       console_error "Error fetching projects:" error ;;;
       ret (mkResponse 500 (JsonError "Failed to fetch projects"))).

(** [GET /api/projects/featured] *)
Definition legacy_get_projects_featured : M Response :=
  try_catch
    (featuredProjects <- legacy_find_sorted is_featured ;;
     ret (mkResponse 200 (JsonDocs featuredProjects)))
    (fun error =>
       console_error "Error fetching featured projects:" error ;;;
       ret (mkResponse 500 (JsonError "Failed to fetch featured projects"))).

(** [POST /api/projects] *)
Definition legacy_post_project (req_body : gmap string json) : M Response :=
  try_catch
    (newProject <- legacy_new_Project req_body ;;
     saved <- legacy_save newProject ;;
     ret (mkResponse 201 (JsonDoc saved)))
    (fun error =>
       console_error "Error adding project:" error ;;;
       ret (mkResponse 500 (JsonError "Failed to add project"))).

(** [PUT /api/projects/:id] *)
Definition legacy_put_project (id : string) (req_body : gmap string json)
  : M Response :=
  try_catch
    (updatedProject <- legacy_findByIdAndUpdate id req_body ;;
     match updatedProject with
     | None => ret (mkResponse 404 (JsonMessage "Project not found"))
     | Some p => ret (mkResponse 200 (JsonDoc p))
     end)
    (fun error =>
       console_error "Error updating project:" error ;;;
       ret (mkResponse 500 (JsonError "Failed to update project"))).

(** [DELETE /api/projects/:id] *)
Definition legacy_delete_project (id : string) : M Response :=
  try_catch
    (deletedProject <- legacy_findByIdAndDelete id ;;
     match deletedProject with
     | None => ret (mkResponse 404 (JsonMessage "Project not found"))
     | Some _ => ret (mkResponse 200 (JsonMessage "Project deleted successfully"))
     end)
    (fun error =>
       console_error "Error deleting project:" error ;;;
       ret (mkResponse 500 (JsonError "Failed to delete project"))).

Lemma legacy_casted_lookup o p :
  legacy_casted o !! p =
    legacy_paths !! p ≫= fun sp => o !! p ≫= cast (type_ sp).
Proof. unfold legacy_casted. by rewrite map_lookup_imap. Qed.

Lemma legacy_defaults_lookup now p :
  legacy_defaults now !! p = legacy_paths !! p ≫= default_value now.
Proof. unfold legacy_defaults. by rewrite lookup_omap. Qed.

Lemma legacy_text_paths p :
  p = "title" \/ p = "description" \/ p = "image" ->
  legacy_paths !! p = Some (mkPath SString false NoDefault).
Proof. by intros [->|[->| ->]]; vm_compute. Qed.

Lemma legacy_has_no_updatedAt : legacy_paths !! "updatedAt" = None.
Proof. vm_compute. reflexivity. Qed.

#[local] Opaque legacy_paths legacy_defaults legacy_casted legacy_cast_errors.

(** X16. The earlier Update and Delete do not check the path id: a malformed id
    fails in the cast of the query and is answered 500, in every state of the
    connection, and nothing is changed. *)
Theorem legacy_malformed_id_is_500 (id : string) (o : gmap string json) (w : World) :
  isValid id = false ->
  ((serve (legacy_put_project id o) w).1 =
     mkResponse 500 (JsonError "Failed to update project") /\
   same_store w (serve (legacy_put_project id o) w).2) /\
  ((serve (legacy_delete_project id) w).1 =
     mkResponse 500 (JsonError "Failed to delete project") /\
   same_store w (serve (legacy_delete_project id) w).2).
Proof.
  intros H%isValid_false.
  unfold legacy_put_project, legacy_delete_project, legacy_findByIdAndUpdate,
    legacy_findByIdAndDelete, same_store.
  rewrite H. unfold_monad. done.
Qed.

(** X17. The earlier Create requires no field: with the store available, a
    [plain] payload with nothing that fails to cast is answered 201 and its
    record is appended, and the record has a title, a description or an image
    only where the payload supplies one; it has no [updatedAt]. *)
Theorem legacy_create_requires_nothing (o : gmap string json) (w : World) :
  available w ->
  Forall (fun d => (_id d < next_oid w)%N) (projects w) ->
  plain o ->
  no_errors (legacy_cast_errors o) = true ->
  exists d w',
    serve (legacy_post_project o) w = (mkResponse 201 (JsonDoc d), w') /\
    projects w' = (projects w ++ [d])%list /\
    (forall p, p = "title" \/ p = "description" \/ p = "image" ->
               o !! p = None -> fields d !! p = None) /\
    fields d !! "updatedAt" = None.
Proof.
  intros Ha Hold Hplain He.
  unfold legacy_post_project, legacy_new_Project, legacy_save, insertOne.
  unfold_monad. simpl. rewrite (payload_id_plain o _ Hplain). simpl.
  rewrite N.max_id, He. simpl.
  unfold available in Ha. rewrite Ha. simpl.
  assert (existsb (has_id (next_oid w)) (projects w) = false) as ->.
  { clear He. induction Hold as [|d l Hd Hl IH]; simpl; [done|].
    rewrite IH, orb_false_r. unfold has_id. apply N.eqb_neq. lia. }
  eexists _, _. split; [reflexivity|]. simpl. split; [done|]. clear He. split.
  - intros p Hp Ho.
    assert (p <> "__v") as Hv by (destruct Hp as [->|[->| ->]]; discriminate).
    rewrite lookup_insert_ne by done.
    rewrite lookup_union, legacy_casted_lookup, legacy_defaults_lookup.
    rewrite (legacy_text_paths p Hp). simpl. by rewrite Ho.
  - rewrite lookup_insert_ne by done.
    rewrite lookup_union, legacy_casted_lookup, legacy_defaults_lookup.
    by rewrite legacy_has_no_updatedAt.
Qed.

(** X18. The earlier Update runs no validator and sets no timestamp: with the
    store available, an Update of an existing record whose payload is [plain]
    and casts is answered 200, stores the empty text for a title given as the empty text,
    and leaves every field the payload does not name as it was, [updatedAt]
    and [createdAt] included. *)
Theorem legacy_update_sets_what_is_given (id : string) (oid : ObjectId)
    (o : gmap string json) (d : Doc) (w : World) :
  available w ->
  NoDup (_id <$> projects w) ->
  ObjectId_fromHex id = Some oid ->
  d ∈ projects w ->
  _id d = oid ->
  plain o ->
  no_errors (legacy_cast_errors o) = true ->
  exists d',
    status (serve (legacy_put_project id o) w).1 = 200 /\
    d' ∈ projects (serve (legacy_put_project id o) w).2 /\
    _id d' = _id d /\
    (o !! "title" = Some (JString "") -> fields d' !! "title" = Some (BString "")) /\
    (forall k, o !! k = None -> fields d' !! k = fields d !! k).
Proof.
  intros Ha Hnd Hid Hd Hoid _ He.
  pose proof (find_id_unique oid _ d Hnd Hd Hoid) as Hfind.
  unfold legacy_put_project, legacy_findByIdAndUpdate.
  rewrite Hid. unfold_monad. rewrite He. simpl.
  unfold available in Ha. rewrite Ha. simpl. rewrite Hfind. simpl.
  clear He.
  exists (mkDoc (_id d) (legacy_casted o ∪ fields d)).
  split; [done|]. split; [by eapply update_first_found|]. split; [done|].
  simpl. split.
  - intros Ho. rewrite lookup_union, legacy_casted_lookup.
    rewrite (legacy_text_paths "title") by auto. simpl. rewrite Ho. simpl.
    by destruct (fields d !! "title").
  - intros k Ho. rewrite lookup_union, legacy_casted_lookup, Ho.
    destruct (legacy_paths !! k); simpl; by destruct (fields d !! k).
Qed.

End Service.

(** ** Worked examples

    The examples run the handlers on a small collection. No payload below
    carries a date as text, an array or an object, and no text path is given a
    Date or a number of magnitude 10^21, so the three conversions of the
    engine play no part in them; they are fixed here to have closed terms. *)

Definition sample_Date_value : json -> option Z := fun _ => None.
Definition sample_Date_toString : Z -> string := fun t => pretty t.
Definition sample_Number_exponential : Z -> string := fun n => pretty n.

Definition sample_doc (i : ObjectId) (title : string) (featured : bool)
    (created updated : Z) : Doc :=
  mkDoc i
    (list_to_map
       [ ("title", BString title); ("description", BString "about");
         ("image", BString "http://x"); ("tags", BArray []);
         ("featured", BBool featured); ("createdAt", BDate created);
         ("updatedAt", BDate updated); ("__v", BInt 0) ]).

Definition sample_world : World :=
  mkWorld 1 false
    [ sample_doc 1%N "first" false 1000 1000;
      sample_doc 2%N "second" true 2000 2500 ]
    3000 3%N [].

(** The path ids of the two records, and one that no record has. *)
Definition id1 : string := "000000000000000000000001".
Definition id2 : string := "000000000000000000000002".
Definition id9 : string := "000000000000000000000009".

Definition sample_payload : gmap string json :=
  list_to_map
    [ ("title", JString "A"); ("description", JString "B");
      ("image", JString "http://x"); ("stars", JNumber 5) ].

Lemma sample_world_ok : store_ok sample_world.
Proof.
  constructor.
  - apply (bool_decide_unpack _). vm_compute. exact I.
  - apply (bool_decide_unpack _). vm_compute. exact I.
  - apply (bool_decide_unpack _). vm_compute. exact I.
Qed.

Lemma sample_payload_plain : plain sample_payload.
Proof. apply (bool_decide_unpack _). vm_compute. exact I. Qed.

Lemma sample_payload_castable :
  castable sample_Date_value sample_Date_toString
           sample_Number_exponential sample_payload.
Proof. apply castable_no_errors. vm_compute. reflexivity. Qed.

Lemma id9_absent : ~ exists_id 9%N sample_world.
Proof.
  intros (d & Hd & Hi).
  apply (proj1 (find_id_None 9%N (projects sample_world))) with (d := d);
    [reflexivity|exact Hd|exact Hi].
Qed.

Lemma get_by_id_outcomes_witness :
  (serve (get_project "not-an-id") sample_world).1 = InvalidIdentifier /\
  (serve (get_project id9) sample_world).1 = NotFound /\
  (serve (get_project id2) sample_world).1 =
    mkResponse 200 (JsonDoc (sample_doc 2%N "second" true 2000 2500)).
Proof.
  split; [|split].
  - apply (get_by_id_outcomes "not-an-id" sample_world eq_refl sample_world_ok).
    reflexivity.
  - apply (get_by_id_outcomes id9 sample_world eq_refl sample_world_ok) with (oid := 9%N).
    + reflexivity.
    + exact id9_absent.
  - apply (get_by_id_outcomes id2 sample_world eq_refl sample_world_ok) with (oid := 2%N).
    + reflexivity.
    + apply list_elem_of_further, list_elem_of_here.
    + reflexivity.
Defined.

(** C2 as stated fails with the connection in state 0: the id of a record and
    a well-formed id that no record has are both answered 500. *)
Lemma get_by_id_while_disconnected :
  sample_doc 2%N "second" true 2000 2500 ∈ projects (set_readyState 0 sample_world) /\
  ObjectId_fromHex id2 = Some 2%N /\
  (serve (get_project id2) (set_readyState 0 sample_world)).1 =
    mkResponse 500 (JsonError "Failed to fetch project") /\
  ObjectId_fromHex id9 = Some 9%N /\
  (serve (get_project id9) (set_readyState 0 sample_world)).1 =
    mkResponse 500 (JsonError "Failed to fetch project").
Proof.
  split; [apply list_elem_of_further, list_elem_of_here|].
  repeat split; vm_compute; reflexivity.
Qed.

Lemma malformed_id_is_400_witness :
  (status (serve (get_project "not-an-id") sample_world).1 = 400 /\
   status (serve (put_project sample_Date_value sample_Date_toString
                              sample_Number_exponential
                    "not-an-id" sample_payload) sample_world).1 = 400 /\
   status (serve (delete_project "not-an-id") sample_world).1 = 400) /\
  (projects (serve (get_project "not-an-id") sample_world).2
     = projects sample_world /\
   projects (serve (put_project sample_Date_value sample_Date_toString
                                sample_Number_exponential
                      "not-an-id" sample_payload) sample_world).2
     = projects sample_world /\
   projects (serve (delete_project "not-an-id") sample_world).2
     = projects sample_world).
Proof.
  apply (malformed_id_is_400 sample_Date_value sample_Date_toString
                             sample_Number_exponential
           "not-an-id" sample_payload sample_world).
  - simpl. lia.
  - reflexivity.
Defined.

(** C4 as stated fails with the connection in state 0: the malformed id is
    answered 500. *)
Lemma malformed_id_while_disconnected :
  isValid "not-an-id" = false /\
  status (serve (get_project "not-an-id") (set_readyState 0 sample_world)).1 = 500.
Proof. split; reflexivity. Qed.

(** In [sample_world] List has the second record before the first, and List
    Featured has the second record alone. *)
Lemma featured_is_list_filtered_witness :
  available sample_world /\
  (serve get_projects sample_world).1 =
    mkResponse 200
      (JsonDocs [ sample_doc 2%N "second" true 2000 2500;
                  sample_doc 1%N "first" false 1000 1000 ]) /\
  (serve get_projects_featured sample_world).1 =
    mkResponse 200 (JsonDocs [ sample_doc 2%N "second" true 2000 2500 ]).
Proof.
  split; [reflexivity|].
  destruct (featured_is_list_filtered sample_world eq_refl)
    as (listed & featured & Hl & Hf & Heq & _ & _).
  assert (listed = [ sample_doc 2%N "second" true 2000 2500;
                     sample_doc 1%N "first" false 1000 1000 ]) as Hlisted.
  { assert ((serve get_projects sample_world).1 =
              mkResponse 200
                (JsonDocs [ sample_doc 2%N "second" true 2000 2500;
                            sample_doc 1%N "first" false 1000 1000 ])) as Hrun
      by (vm_compute; reflexivity).
    rewrite Hrun in Hl. by injection Hl as <-. }
  rewrite Hl, Hf, Heq, Hlisted. split; [reflexivity|].
  vm_compute. reflexivity.
Defined.

(** C7 as stated fails with the connection in state 0 and a store that can be
    reached: List is answered 500 by its guard, List Featured sends its query
    and is answered 200 with a record. *)
Lemma featured_without_list :
  (serve get_projects (mkWorld 0 true (projects sample_world) 3000 3%N [])).1 =
    mkResponse 500 (JsonError "Failed to fetch projects") /\
  (serve get_projects_featured
     (mkWorld 0 true (projects sample_world) 3000 3%N [])).1 =
    mkResponse 200 (JsonDocs [ sample_doc 2%N "second" true 2000 2500 ]).
Proof. split; vm_compute; reflexivity. Qed.

(** In [sample_world] the record created at 2000 is listed before the one
    created at 1000. *)
Lemma list_outcome_witness :
  available sample_world /\ store_ok sample_world /\
  serve get_projects sample_world =
    (mkResponse 200
       (JsonDocs [ sample_doc 2%N "second" true 2000 2500;
                   sample_doc 1%N "first" false 1000 1000 ]),
     sample_world).
Proof.
  split; [reflexivity|]. split; [exact sample_world_ok|].
  destruct (list_outcome sample_world eq_refl sample_world_ok)
    as (listed & Hl & Hperm & _ & Horder).
  rewrite Hl.
  apply Permutation_sym, Permutation_length_2_inv in Hperm.
  destruct Hperm as [-> | ->]; [exfalso|reflexivity].
  destruct (Horder 0%nat 1%nat _ _ 2000 ltac:(lia) eq_refl eq_refl)
    as (ta & Ha & Hle); [vm_compute; reflexivity|].
  assert (fields (sample_doc 1%N "first" false 1000 1000) !! "createdAt"
          = Some (BDate 1000)) as Hc by (vm_compute; reflexivity).
  rewrite Hc in Ha. injection Ha as <-. lia.
Defined.

(** C8 as stated fails with the connection in state 0: List is answered 500
    and none of the two records. *)
Lemma list_while_disconnected :
  length (projects (set_readyState 0 sample_world)) = 2%nat /\
  (serve get_projects (set_readyState 0 sample_world)).1 =
    mkResponse 500 (JsonError "Failed to fetch projects").
Proof. split; vm_compute; reflexivity. Qed.

(** A payload without a title. *)
Definition untitled_payload : gmap string json :=
  list_to_map [ ("description", JString "B"); ("image", JString "http://x") ].

Lemma untitled_payload_plain : plain untitled_payload.
Proof. apply (bool_decide_unpack _). vm_compute. exact I. Qed.

Lemma create_outcomes_witness :
  (exists d w',
     serve (post_project sample_Date_value sample_Date_toString
                         sample_Number_exponential sample_payload)
       sample_world = (mkResponse 201 (JsonDoc d), w') /\
     projects w' = (projects sample_world ++ [d])%list /\
     ~ exists_id (_id d) sample_world /\
     fields d !! "title" = Some (BString "A") /\
     fields d !! "description" = Some (BString "B") /\
     fields d !! "image" = Some (BString "http://x")) /\
  (exists errors w',
     serve (post_project sample_Date_value sample_Date_toString
                         sample_Number_exponential untitled_payload)
       sample_world = (mkResponse 500 (JsonError "Failed to add project"), w') /\
     console w' =
       LogError "Error adding project:" (ValidationError errors)
         :: console sample_world /\
     errors !! "title" = Some RequiredMissing /\
     projects w' = projects sample_world).
Proof.
  split.
  - apply (create_outcomes sample_Date_value sample_Date_toString
                           sample_Number_exponential
             sample_payload sample_world eq_refl sample_world_ok
             sample_payload_plain).
    + split; [reflexivity|discriminate].
    + split; [reflexivity|discriminate].
    + split; [reflexivity|discriminate].
    + exact sample_payload_castable.
  - apply (create_outcomes sample_Date_value sample_Date_toString
                           sample_Number_exponential
             untitled_payload sample_world eq_refl sample_world_ok
             untitled_payload_plain).
    + left. reflexivity.
    + left. reflexivity.
Defined.

(** C1 as stated fails for a payload that has the three texts and a
    [featured] that is no boolean: the answer is 500. *)
Definition maybe_featured_payload : gmap string json :=
  <["featured" := JString "maybe"]> sample_payload.

Lemma create_with_uncastable_featured :
  (supplies_text maybe_featured_payload "title" "A" /\
   supplies_text maybe_featured_payload "description" "B" /\
   supplies_text maybe_featured_payload "image" "http://x") /\
  available sample_world /\
  status (serve (post_project sample_Date_value sample_Date_toString
                              sample_Number_exponential
                   maybe_featured_payload) sample_world).1 = 500.
Proof.
  split; [|split; vm_compute; reflexivity].
  repeat split; try (vm_compute; reflexivity); discriminate.
Qed.

Lemma create_keeps_schema_fields_witness :
  (forall o',
     plain o' ->
     (forall p, is_Some (paths !! p) -> o' !! p = sample_payload !! p) ->
     serve (post_project sample_Date_value sample_Date_toString
                         sample_Number_exponential o') sample_world =
     serve (post_project sample_Date_value sample_Date_toString
                         sample_Number_exponential sample_payload)
       sample_world) /\
  (exists d w',
     serve (post_project sample_Date_value sample_Date_toString
                         sample_Number_exponential sample_payload)
       sample_world = (mkResponse 201 (JsonDoc d), w') /\
     projects w' = (projects sample_world ++ [d])%list /\
     (forall k, is_Some (fields d !! k) -> is_Some (paths !! k) \/ k = "__v") /\
     fields d !! "stars" = None /\
     fields d !! "featured" = Some (BBool false) /\
     fields d !! "createdAt" = Some (BDate 3000) /\
     fields d !! "updatedAt" = Some (BDate 3000)).
Proof.
  destruct (create_keeps_schema_fields sample_Date_value sample_Date_toString
                                       sample_Number_exponential
              sample_payload sample_world eq_refl sample_world_ok
              sample_payload_plain) as [H1 H2].
  split; [exact H1|].
  pose (d := stored sample_Date_value sample_Date_toString
                    sample_Number_exponential sample_payload
               sample_world).
  pose (w' := set_projects (projects sample_world ++ [d])
                (set_next_oid 4%N sample_world)).
  assert (serve (post_project sample_Date_value sample_Date_toString
                              sample_Number_exponential
                   sample_payload) sample_world
          = (mkResponse 201 (JsonDoc d), w')) as Hpost
    by (vm_compute; reflexivity).
  destruct (H2 d w' Hpost) as (Ha & Hb & Hc & Hd & He).
  exists d, w'. split; [exact Hpost|].
  split; [exact Ha|]. split; [exact Hb|]. split; [vm_compute; reflexivity|].
  split; [apply Hc; reflexivity|]. split; [apply Hd; reflexivity|].
  apply He. reflexivity.
Defined.

(** C10 as stated fails for a payload with an [_id], which the schema does
    not declare and which is not dropped: with the id of a stored record the
    Create that is otherwise answered 201 is answered 500, for the duplicate
    key; with an id that is free the record is stored under it and not under
    a generated one. *)
Lemma create_with_own_id :
  paths !! "_id" = None /\
  status (serve (post_project sample_Date_value sample_Date_toString
                              sample_Number_exponential
                   sample_payload) sample_world).1 = 201 /\
  (serve (post_project sample_Date_value sample_Date_toString
                       sample_Number_exponential
            (<["_id" := JString id2]> sample_payload)) sample_world).1 =
    mkResponse 500 (JsonError "Failed to add project") /\
  exists d,
    (serve (post_project sample_Date_value sample_Date_toString
                         sample_Number_exponential
              (<["_id" := JString id9]> sample_payload)) sample_world).1 =
      mkResponse 201 (JsonDoc d) /\
    _id d = 9%N /\
    _id d <> next_oid sample_world.
Proof.
  split; [vm_compute; reflexivity|]. split; [vm_compute; reflexivity|].
  split; [vm_compute; reflexivity|].
  eexists. split; [vm_compute; reflexivity|]. split; [reflexivity|].
  vm_compute. discriminate.
Qed.

Lemma update_title_only_witness :
  (~ exists_id 1%N sample_world ->
   (serve (put_project sample_Date_value sample_Date_toString
                       sample_Number_exponential id1
             (title_only "X")) sample_world).1 = NotFound) /\
  (forall d, d ∈ projects sample_world -> _id d = 1%N ->
     exists d' w',
       serve (put_project sample_Date_value sample_Date_toString
                          sample_Number_exponential id1
                (title_only "X")) sample_world =
         (mkResponse 200 (JsonDoc d'), w') /\
       d' ∈ projects w' /\
       (forall e, e ∈ projects sample_world -> _id e <> 1%N -> e ∈ projects w') /\
       _id d' = _id d /\
       fields d' !! "title" = Some (BString "X") /\
       fields d' !! "updatedAt" = Some (BDate (clock sample_world)) /\
       (forall k, k <> "title" -> k <> "updatedAt" ->
                  fields d' !! k = fields d !! k) /\
       (forall t, fields d !! "updatedAt" = Some (BDate t) ->
                  t < clock sample_world ->
                  exists t', fields d' !! "updatedAt" = Some (BDate t') /\ t < t')).
Proof.
  apply (update_title_only sample_Date_value sample_Date_toString
                           sample_Number_exponential
           id1 1%N "X" sample_world eq_refl sample_world_ok).
  - discriminate.
  - reflexivity.
Defined.

(** A record created with an [updatedAt] of its own, later than the clock. *)
Definition postdated_payload : gmap string json :=
  <["updatedAt" := JNumber 9000]> sample_payload.

Definition empty_world : World := mkWorld 1 false [] 1000 1%N [].

(** C3 as stated fails for such a record: the Update at time 2000 is
    answered 200 and takes [updatedAt] from 9000 back to 2000. *)
Lemma update_of_postdated_record :
  let w1 := (serve (post_project sample_Date_value sample_Date_toString
                                 sample_Number_exponential
                      postdated_payload) empty_world).2 in
  let r := serve (put_project sample_Date_value sample_Date_toString
                              sample_Number_exponential id1
                    (title_only "X")) (set_clock 2000 w1) in
  (fun d => fields d !! "updatedAt") <$> projects w1 = [Some (BDate 9000)] /\
  status r.1 = 200 /\
  (fun d => fields d !! "updatedAt") <$> projects r.2 = [Some (BDate 2000)].
Proof. vm_compute. repeat split; reflexivity. Qed.



Lemma title_only_plain x : plain (title_only x).
Proof.
  unfold plain, title_only. apply map_Forall_singleton. reflexivity.
Qed.





Lemma featured_has_no_guard_witness :
  (reconnects (mkWorld 0 true (projects sample_world) 3000 3%N []) = true ->
   (serve get_projects_featured
      (mkWorld 0 true (projects sample_world) 3000 3%N [])).1 =
     mkResponse 200
       (JsonDocs (hydrate 3000 <$>
                    sort_createdAt_desc
                      (List.filter is_featured (projects sample_world))))) /\
  (reconnects (mkWorld 0 true (projects sample_world) 3000 3%N []) = false ->
   serve get_projects_featured
     (mkWorld 0 true (projects sample_world) 3000 3%N []) =
     (mkResponse 500 (JsonError "Failed to fetch featured projects"),
      print (LogError "Error fetching featured projects:"
               (MongooseError "store command timed out"))
        (mkWorld 0 true (projects sample_world) 3000 3%N []))).
Proof.
  apply (featured_has_no_guard (mkWorld 0 true (projects sample_world) 3000 3%N [])).
  reflexivity.
Defined.

(** ** Worked examples for the further properties *)

Definition sample_down : World := set_readyState 0 sample_world.

Lemma guarded_handlers_unavailable_witness :
  serve get_projects sample_down =
    (mkResponse 500 (JsonError "Failed to fetch projects"),
     print (LogError "Error fetching projects:"
              (JsError "Database not connected")) sample_down) /\
  serve (get_project id1) sample_down =
    (mkResponse 500 (JsonError "Failed to fetch project"),
     print (LogError "Error fetching project:"
              (JsError "Database not connected")) sample_down) /\
  serve (post_project sample_Date_value sample_Date_toString
                      sample_Number_exponential sample_payload)
    sample_down =
    (mkResponse 500 (JsonError "Failed to add project"),
     print (LogError "Error adding project:"
              (JsError "Database not connected")) sample_down) /\
  serve (put_project sample_Date_value sample_Date_toString
                     sample_Number_exponential id1 sample_payload)
    sample_down =
    (mkResponse 500 (JsonError "Failed to update project"),
     print (LogError "Error updating project:"
              (JsError "Database not connected")) sample_down) /\
  serve (delete_project id1) sample_down =
    (mkResponse 500 (JsonError "Failed to delete project"),
     print (LogError "Error deleting project:"
              (JsError "Database not connected")) sample_down).
Proof.
  apply (guarded_handlers_unavailable sample_Date_value sample_Date_toString
                                      sample_Number_exponential
           id1 sample_payload sample_down).
  reflexivity.
Defined.

(** The record and the world a Create of [sample_payload] leaves. *)
Definition created_doc : Doc :=
  stored sample_Date_value sample_Date_toString
         sample_Number_exponential sample_payload sample_world.

Definition created_world : World :=
  set_projects (projects sample_world ++ [created_doc])
    (set_next_oid 4%N sample_world).

Definition id3 : string := "000000000000000000000003".

Lemma sample_created :
  serve (post_project sample_Date_value sample_Date_toString
                      sample_Number_exponential sample_payload)
    sample_world = (mkResponse 201 (JsonDoc created_doc), created_world).
Proof. vm_compute. reflexivity. Qed.

Lemma create_then_get_witness :
  (serve (get_project id3) created_world).1 = mkResponse 200 (JsonDoc created_doc).
Proof.
  apply (create_then_get sample_Date_value sample_Date_toString
                         sample_Number_exponential
           sample_payload sample_world created_world created_doc id3
           eq_refl sample_world_ok sample_payload_plain sample_created).
  reflexivity.
Defined.

Lemma create_then_list_witness :
  exists listed,
    (serve get_projects created_world).1 = mkResponse 200 (JsonDocs listed) /\
    created_doc ∈ listed /\
    (forall e, e ∈ projects sample_world -> e ∈ listed) /\
    length listed = S (length (projects sample_world)).
Proof.
  apply (create_then_list sample_Date_value sample_Date_toString
                          sample_Number_exponential
           sample_payload sample_world created_world created_doc
           eq_refl sample_world_ok sample_payload_plain sample_created).
Defined.

(** The same payload once more. *)
Definition created_again : Doc :=
  stored sample_Date_value sample_Date_toString
         sample_Number_exponential sample_payload created_world.

Lemma sample_created_again :
  serve (post_project sample_Date_value sample_Date_toString
                      sample_Number_exponential sample_payload)
    created_world =
  (mkResponse 201 (JsonDoc created_again),
   set_projects (projects created_world ++ [created_again])
     (set_next_oid 5%N created_world)).
Proof. vm_compute. reflexivity. Qed.

Lemma creates_are_distinct_witness :
  _id created_doc <> _id created_again /\
  created_doc ∈ projects (set_projects (projects created_world ++ [created_again])
                            (set_next_oid 5%N created_world)) /\
  created_again ∈ projects (set_projects (projects created_world ++ [created_again])
                              (set_next_oid 5%N created_world)).
Proof.
  apply (creates_are_distinct sample_Date_value sample_Date_toString
                              sample_Number_exponential
           sample_payload sample_payload sample_world created_world _
           created_doc created_again
           eq_refl sample_world_ok sample_payload_plain sample_payload_plain
           sample_created sample_created_again).
Defined.

Lemma update_refused_witness :
  (serve (put_project sample_Date_value sample_Date_toString
                      sample_Number_exponential id9
            (title_only "")) sample_world).1 =
    mkResponse 500 (JsonError "Failed to update project") /\
  projects (serve (put_project sample_Date_value sample_Date_toString
                               sample_Number_exponential id9
                     (title_only "")) sample_world).2 = projects sample_world.
Proof.
  apply (update_refused sample_Date_value sample_Date_toString
                        sample_Number_exponential
           id9 9%N (title_only "") "title" sample_world eq_refl eq_refl
           (title_only_plain "")).
  - left. reflexivity.
  - left. reflexivity.
Defined.

Lemma delete_absent_or_twice_witness :
  (~ exists_id 9%N sample_world ->
   (serve (delete_project id9) sample_world).1 = NotFound /\
   projects (serve (delete_project id9) sample_world).2 = projects sample_world) /\
  (serve (delete_project id9) (serve (delete_project id9) sample_world).2).1
    = NotFound.
Proof.
  apply (delete_absent_or_twice id9 9%N sample_world eq_refl sample_world_ok).
  reflexivity.
Defined.

Lemma writes_touch_one_record_witness :
  (sample_doc 2%N "second" true 2000 2500
     ∈ projects (serve (put_project sample_Date_value sample_Date_toString
                                    sample_Number_exponential id1
                          (title_only "X")) sample_world).2 <->
   sample_doc 2%N "second" true 2000 2500 ∈ projects sample_world) /\
  (sample_doc 2%N "second" true 2000 2500
     ∈ projects (serve (delete_project id1) sample_world).2 <->
   sample_doc 2%N "second" true 2000 2500 ∈ projects sample_world) /\
  _id <$> projects (serve (put_project sample_Date_value sample_Date_toString
                                       sample_Number_exponential id1
                             (title_only "X")) sample_world).2
    = _id <$> projects sample_world.
Proof.
  apply (writes_touch_one_record sample_Date_value sample_Date_toString
                                 sample_Number_exponential
           id1 1%N (title_only "X") sample_world
           (sample_doc 2%N "second" true 2000 2500)
           eq_refl sample_world_ok (title_only_plain "X") eq_refl).
  simpl. lia.
Defined.

Lemma update_featured_then_listed_witness :
  exists d' w',
    serve (put_project sample_Date_value sample_Date_toString
                       sample_Number_exponential id1
             (featured_only true)) sample_world =
      (mkResponse 200 (JsonDoc d'), w') /\
    _id d' = _id (sample_doc 1%N "first" false 1000 1000) /\
    fields d' !! "featured" = Some (BBool true) /\
    (forall k, k <> "featured" -> k <> "updatedAt" ->
               fields d' !! k
               = fields (sample_doc 1%N "first" false 1000 1000) !! k) /\
    exists featured,
      (serve get_projects_featured w').1 = mkResponse 200 (JsonDocs featured) /\
      d' ∈ featured.
Proof.
  apply (update_featured_then_listed sample_Date_value sample_Date_toString
                                     sample_Number_exponential
           id1 1%N (sample_doc 1%N "first" false 1000 1000) sample_world
           eq_refl sample_world_ok eq_refl).
  - apply list_elem_of_here.
  - reflexivity.
Defined.

(** An environment of a production deployment. *)
Definition sample_env : gmap string string :=
  list_to_map [ ("MONGODB_URI", "mongodb://db/portfolio"); ("NODE_ENV", "production") ].

Lemma start_up_witness :
  (exists w', connectDB (config_of sample_env) sample_env true sample_down
              = Running w' /\
              available w' /\ projects w' = projects sample_down) /\
  (sample_env !! "NODE_ENV" <> Some "production" ->
   connectDB (config_of sample_env) sample_env false sample_down = Exited 1) /\
  (sample_env !! "NODE_ENV" = Some "production" ->
   exists w', connectDB (config_of sample_env) sample_env false sample_down
              = Running w' /\
              unavailable w' /\ projects w' = projects sample_down /\
              (serve get_projects w').1 =
                mkResponse 500 (JsonError "Failed to fetch projects")).
Proof.
  apply (start_up sample_env (config_of sample_env) sample_down).
  vm_compute. reflexivity.
Defined.

Lemma legacy_malformed_id_is_500_witness :
  ((serve (legacy_put_project sample_Date_value sample_Date_toString
                              sample_Number_exponential
             "not-an-id" sample_payload) sample_world).1 =
     mkResponse 500 (JsonError "Failed to update project") /\
   same_store sample_world
     (serve (legacy_put_project sample_Date_value sample_Date_toString
                                sample_Number_exponential
               "not-an-id" sample_payload) sample_world).2) /\
  ((serve (legacy_delete_project "not-an-id") sample_world).1 =
     mkResponse 500 (JsonError "Failed to delete project") /\
   same_store sample_world
     (serve (legacy_delete_project "not-an-id") sample_world).2).
Proof.
  apply (legacy_malformed_id_is_500 sample_Date_value sample_Date_toString
                                    sample_Number_exponential
           "not-an-id" sample_payload sample_world).
  reflexivity.
Defined.

(** The earlier Create of the empty payload in [sample_world]. *)
Lemma legacy_create_requires_nothing_witness :
  plain (∅ : gmap string json) /\
  exists d,
    (serve (legacy_post_project sample_Date_value sample_Date_toString
              sample_Number_exponential ∅) sample_world).1 =
      mkResponse 201 (JsonDoc d) /\
    fields d !! "title" = None /\
    fields d !! "updatedAt" = None /\
    length (projects
              (serve (legacy_post_project sample_Date_value sample_Date_toString
                        sample_Number_exponential ∅) sample_world).2) = 3%nat.
Proof.
  split; [apply map_Forall_empty|].
  destruct (legacy_create_requires_nothing sample_Date_value
              sample_Date_toString sample_Number_exponential
              ∅ sample_world eq_refl (ids_older _ sample_world_ok)
              (map_Forall_empty _))
    as (d & w' & Hpost & Hproj & Htext & Hupd); [vm_compute; reflexivity|].
  exists d. rewrite Hpost. simpl. split; [reflexivity|].
  split; [apply Htext; [by left|apply lookup_empty]|].
  split; [exact Hupd|]. rewrite Hproj. reflexivity.
Defined.

(** The earlier Update of the first record of [sample_world] with the empty
    text for its title. *)
Lemma legacy_update_sets_what_is_given_witness :
  status (serve (legacy_put_project sample_Date_value sample_Date_toString
                   sample_Number_exponential id1 (title_only ""))
            sample_world).1 = 200 /\
  exists d',
    d' ∈ projects (serve (legacy_put_project sample_Date_value
                            sample_Date_toString sample_Number_exponential
                            id1 (title_only "")) sample_world).2 /\
    _id d' = 1%N /\
    fields d' !! "title" = Some (BString "") /\
    fields d' !! "description" = Some (BString "about") /\
    fields d' !! "updatedAt" = Some (BDate 1000).
Proof.
  destruct (legacy_update_sets_what_is_given sample_Date_value
              sample_Date_toString sample_Number_exponential
              id1 1%N (title_only "") (sample_doc 1%N "first" false 1000 1000)
              sample_world eq_refl (ids_unique _ sample_world_ok) eq_refl
              (list_elem_of_here _ _) eq_refl (title_only_plain ""))
    as (d' & Hs & Hin & Hid & Ht & Hk); [vm_compute; reflexivity|].
  split; [exact Hs|]. exists d'. split; [exact Hin|]. split; [exact Hid|].
  split; [apply Ht; vm_compute; reflexivity|].
  split.
  - rewrite Hk by (vm_compute; reflexivity). vm_compute. reflexivity.
  - rewrite Hk by (vm_compute; reflexivity). vm_compute. reflexivity.
Defined.
